(** * Deploify: the Bitbucket webhook that stages pull requests on Heroku

    A shallow embedding of [src/index.js].  The module exports one Express
    handler, [webhook], built from a handful of closures over the
    configuration object.  Everything the handler does to the outside world
    is an HTTP request to Bitbucket or Heroku, a line on the console, or the
    status code it sends back; the embedding records those as a trace of
    events, in the order in which the promise chains of the source issue
    them.

    Strings are Rocq strings (byte sequences, read as UTF-8).  A promise is
    modelled by the events its computation emits together with the state it
    ends in: fulfilled, rejected, or pending for ever. *)

From Stdlib Require Import String Ascii List Bool ZArith NArith Lia.
From Stdlib Require Import DecimalString DecimalZ.
From Stdlib Require DecimalN DecimalPos DecimalFacts.
Import ListNotations.

Local Open Scope string_scope.
Local Open Scope list_scope.

(** ** JavaScript values the handler looks at *)

(** The exceptions that can occur: the three built-in ones the source can
    raise, and the error a provider request hands to its callback (or
    rejects with). *)
Inductive error : Type :=
| TypeError
| ReferenceError
| SyntaxError
| RequestError.

(** [pullrequest.id]: a JSON number, integer-valued, or a string. *)
Inductive pr_id : Type :=
| id_number (n : Z)
| id_string (s : string).

(** *** Numbers

    A pull-request id that is a number is an integer-valued double.  The
    model keeps its value in [Z]; [is_double] tells which integers are
    values of doubles.  Conversions between numbers and strings follow
    ECMAScript: Number-to-string prints the shortest decimal that reads back
    as the same double, with an exponent from 1e21 on; string-to-Number
    reads a numeric literal and rounds its exact value to the nearest
    double, ties to even. *)

(** A Number: not a number, an infinity, or the finite [m * 2 ^ e] with its
    sign ([m] is not negative). *)
Inductive number : Type :=
| NaN
| Infinity (negative : bool)
| Finite (negative : bool) (m e : Z).

(** [p / q] rounded to the nearest integer, ties to even. *)
Definition round_half_even (p q : Z) : Z :=
  let f := (p / q)%Z in
  match (2 * (p mod q) ?= q)%Z with
  | Lt => f
  | Gt => (f + 1)%Z
  | Eq => if Z.even f then f else (f + 1)%Z
  end.

(** The integer part of the binary logarithm of [p / q]. *)
Definition floor_log2 (p q : Z) : Z :=
  let l := (Z.log2 p - Z.log2 q)%Z in
  if (if 0 <=? l then q * 2 ^ l <=? p else q <=? p * 2 ^ (- l))%Z
  then l else (l - 1)%Z.

(** The double nearest to the positive rational [p / q]: 53 significant
    bits, exponent not below that of the subnormals, infinite from
    [2 ^ 1024] on. *)
Definition nearest_double (negative : bool) (p q : Z) : number :=
  let e := Z.max (floor_log2 p q - 52) (-1074) in
  let m := if (0 <=? e)%Z then round_half_even p (q * 2 ^ e)
           else round_half_even (p * 2 ^ (- e)) q in
  if ((0 <=? e) && (2 ^ 1024 <=? m * 2 ^ e))%Z then Infinity negative
  else Finite negative m e.

(** The double nearest to [M * 10 ^ E], [M] not negative. *)
Definition double_of_decimal (negative : bool) (M E : Z) : number :=
  if (M =? 0)%Z then Finite negative 0 0
  else if (0 <=? E)%Z then nearest_double negative (M * 10 ^ E) 1
  else nearest_double negative M (10 ^ (- E)).

(** Whether the Number [x] is the integer [n] (the two zeros are equal). *)
Definition equals_integer (x : number) (n : Z) : bool :=
  match x with
  | Finite negative m e =>
      let v := if negative then (- m)%Z else m in
      if (0 <=? e)%Z then (v * 2 ^ e =? n)%Z else (v =? n * 2 ^ (- e))%Z
  | _ => false
  end.

(** Whether the integer [n] is the value of a double. *)
Definition is_double (n : Z) : bool :=
  equals_integer (double_of_decimal (n <? 0)%Z (Z.abs n) 0) n.

(** **** Number to string *)

Fixpoint trailing_zeros (fuel : nat) (d : Z) : nat :=
  match fuel with
  | O => O
  | S fuel' =>
      if (d mod 10 =? 0)%Z then S (trailing_zeros fuel' (d / 10)) else O
  end.

(** [d] without its trailing zeros. *)
Fixpoint significand (fuel : nat) (d : Z) : Z :=
  match fuel with
  | O => d
  | S fuel' => if (d mod 10 =? 0)%Z then significand fuel' (d / 10) else d
  end.

Definition decimal_digits (d : Z) : Decimal.uint := N.to_uint (Z.to_N d).

Definition digit_count (d : Z) : nat := Decimal.nb_digits (decimal_digits d).

(** Whether the decimal [d] reads back as the double [x]. *)
Definition accepts (x d : Z) : bool :=
  (0 <? d)%Z && equals_integer (double_of_decimal false d 0) x.

(** For each number [j] of trailing zeros, the two multiples of [10 ^ j]
    around [x]. *)
Definition candidates (x : Z) : list Z :=
  flat_map (fun j => let step := (10 ^ Z.of_nat j)%Z in
                     let lo := (x / step * step)%Z in
                     [lo; (lo + step)%Z])
           (seq 0 (S (digit_count x))).

(** The number of significant digits of [d]. *)
Definition significant (d : Z) : nat :=
  digit_count (significand (digit_count d) d).

(** [d] is a better decimal for [x] than [b]: fewer significant digits;
    else closer to [x]; else an even last digit. *)
Definition better (x d b : Z) : bool :=
  let kd := significant d in
  let kb := significant b in
  (kd <? kb)%nat
  || ((kd =? kb)%nat
      && ((Z.abs (d - x) <? Z.abs (b - x))%Z
          || ((Z.abs (d - x) =? Z.abs (b - x))%Z
              && Z.even (significand (digit_count d) d)
              && negb (Z.even (significand (digit_count b) b))))).

(** The decimal that is printed for the positive double [x]. *)
Definition shortest (x : Z) : Z :=
  fold_left (fun b d => if better x d b then d else b)
            (filter (accepts x) (candidates x)) x.

Definition head_digit (u : Decimal.uint) : Decimal.uint :=
  match u with
  | Decimal.Nil => Decimal.Nil
  | Decimal.D0 _ => Decimal.D0 Decimal.Nil
  | Decimal.D1 _ => Decimal.D1 Decimal.Nil
  | Decimal.D2 _ => Decimal.D2 Decimal.Nil
  | Decimal.D3 _ => Decimal.D3 Decimal.Nil
  | Decimal.D4 _ => Decimal.D4 Decimal.Nil
  | Decimal.D5 _ => Decimal.D5 Decimal.Nil
  | Decimal.D6 _ => Decimal.D6 Decimal.Nil
  | Decimal.D7 _ => Decimal.D7 Decimal.Nil
  | Decimal.D8 _ => Decimal.D8 Decimal.Nil
  | Decimal.D9 _ => Decimal.D9 Decimal.Nil
  end.

Definition tail_digits (u : Decimal.uint) : Decimal.uint :=
  match u with
  | Decimal.Nil => Decimal.Nil
  | Decimal.D0 t | Decimal.D1 t | Decimal.D2 t | Decimal.D3 t | Decimal.D4 t
  | Decimal.D5 t | Decimal.D6 t | Decimal.D7 t | Decimal.D8 t | Decimal.D9 t => t
  end.

Definition is_nil (u : Decimal.uint) : bool :=
  match u with
  | Decimal.Nil => true
  | _ => false
  end.

(** The decimal [d], of [k] significant digits and [n] digits in all: up to
    21 digits the significant digits followed by zeros; beyond, the first
    digit, a point and the other significant digits if any, and the
    exponent [n - 1]. *)
Definition print_positive (d : Z) : string :=
  let s := significand (digit_count d) d in
  let tz := trailing_zeros (digit_count d) d in
  let k := digit_count s in
  let n := (k + tz)%nat in
  if (n <=? 21)%nat then
    NilEmpty.string_of_uint
      (Decimal.app (decimal_digits s) (Nat.iter tz Decimal.D0 Decimal.Nil))
  else
    (NilEmpty.string_of_uint (head_digit (decimal_digits s))
     ++ (if is_nil (tail_digits (decimal_digits s)) then EmptyString
         else "." ++ NilEmpty.string_of_uint (tail_digits (decimal_digits s)))
     ++ "e+"
     ++ NilEmpty.string_of_uint (decimal_digits (Z.of_nat (n - 1))))%string.

(** Number-to-string conversion of an integer-valued double. *)
Definition number_to_string (n : Z) : string :=
  match n with
  | Z0 => "0"
  | Zpos _ => print_positive (shortest n)
  | Zneg _ => ("-" ++ print_positive (shortest (- n)))%string
  end.

(** **** String to number *)

(** White space and line terminators, by their UTF-8 bytes: the six of
    ASCII; U+00A0; U+1680, U+2000 to U+200A, U+2028, U+2029, U+202F,
    U+205F, U+3000 and U+FEFF. *)
Definition is_ascii_space (c : ascii) : bool :=
  let n := N_of_ascii c in
  ((n =? 9) || (n =? 10) || (n =? 11) || (n =? 12) || (n =? 13) || (n =? 32))%N.

Definition is_space_2 (c1 c2 : ascii) : bool :=
  ((N_of_ascii c1 =? 194) && (N_of_ascii c2 =? 160))%N.

Definition is_space_3 (c1 c2 c3 : ascii) : bool :=
  let n1 := N_of_ascii c1 in
  let n2 := N_of_ascii c2 in
  let n3 := N_of_ascii c3 in
  ((n1 =? 225) && (n2 =? 154) && (n3 =? 128)
   || (n1 =? 226) && (n2 =? 128)
      && ((128 <=? n3) && (n3 <=? 138) || (n3 =? 168) || (n3 =? 169)
          || (n3 =? 175))
   || (n1 =? 226) && (n2 =? 129) && (n3 =? 159)
   || (n1 =? 227) && (n2 =? 128) && (n3 =? 128)
   || (n1 =? 239) && (n2 =? 187) && (n3 =? 191))%N.

Fixpoint skip_whitespace (s : string) : string :=
  match s with
  | EmptyString => EmptyString
  | String c1 rest =>
      if is_ascii_space c1 then skip_whitespace rest
      else
        match rest with
        | String c2 rest2 =>
            if is_space_2 c1 c2 then skip_whitespace rest2
            else
              match rest2 with
              | String c3 rest3 =>
                  if is_space_3 c1 c2 c3 then skip_whitespace rest3 else s
              | EmptyString => s
              end
        | EmptyString => s
        end
  end.

Definition all_whitespace (s : string) : bool :=
  match skip_whitespace s with
  | EmptyString => true
  | _ => false
  end.

Definition digit_of_char (c : ascii) : option (Decimal.uint -> Decimal.uint) :=
  match c with
  | "0"%char => Some Decimal.D0
  | "1"%char => Some Decimal.D1
  | "2"%char => Some Decimal.D2
  | "3"%char => Some Decimal.D3
  | "4"%char => Some Decimal.D4
  | "5"%char => Some Decimal.D5
  | "6"%char => Some Decimal.D6
  | "7"%char => Some Decimal.D7
  | "8"%char => Some Decimal.D8
  | "9"%char => Some Decimal.D9
  | _ => None
  end.

(** The decimal digits a string starts with, and what follows them. *)
Fixpoint scan_digits (s : string) : Decimal.uint * string :=
  match s with
  | EmptyString => (Decimal.Nil, EmptyString)
  | String c rest =>
      match digit_of_char c with
      | Some digit => let (u, r) := scan_digits rest in (digit u, r)
      | None => (Decimal.Nil, s)
      end
  end.

(** An exponent part, if the string starts with one: [e] or [E], a sign if
    any, and at least one digit. *)
Definition exponent_part (s : string) : Z * string :=
  match s with
  | String c rest =>
      if (Ascii.eqb c "e" || Ascii.eqb c "E")%bool then
        let '(negative, after_sign) :=
          match rest with
          | String "-" r => (true, r)
          | String "+" r => (false, r)
          | _ => (false, rest)
          end in
        let (u, r) := scan_digits after_sign in
        if is_nil u then (0%Z, s)
        else ((if negative then - Z.of_uint u else Z.of_uint u)%Z, r)
      else (0%Z, s)
  | EmptyString => (0%Z, s)
  end.

(** An unsigned decimal literal at the start of a string: digits, a point
    and digits if any (a digit on one side of the point at least), an
    exponent part if any.  The result is its value as [M * 10 ^ E], and
    what follows the literal. *)
Definition decimal_literal (s : string) : option (Z * Z * string) :=
  let (int_digits, r1) := scan_digits s in
  let (frac_digits, r2) :=
    match r1 with
    | String "." r => scan_digits r
    | _ => (Decimal.Nil, r1)
    end in
  if (is_nil int_digits && is_nil frac_digits)%bool then None
  else
    let (exponent, r3) := exponent_part r2 in
    Some (Z.of_uint (Decimal.app int_digits frac_digits),
          (exponent - Z.of_nat (Decimal.nb_digits frac_digits))%Z,
          r3).

Definition base_of_prefix (c : ascii) : option Z :=
  if (Ascii.eqb c "x" || Ascii.eqb c "X")%bool then Some 16%Z
  else if (Ascii.eqb c "o" || Ascii.eqb c "O")%bool then Some 8%Z
  else if (Ascii.eqb c "b" || Ascii.eqb c "B")%bool then Some 2%Z
  else None.

Definition digit_in_base (base : Z) (c : ascii) : option Z :=
  let n := Z.of_N (N_of_ascii c) in
  let v := if ((48 <=? n) && (n <=? 57))%Z then Some (n - 48)%Z
           else if ((97 <=? n) && (n <=? 102))%Z then Some (n - 87)%Z
           else if ((65 <=? n) && (n <=? 70))%Z then Some (n - 55)%Z
           else None in
  match v with
  | Some d => if (d <? base)%Z then Some d else None
  | None => None
  end.

Fixpoint scan_in_base (base acc : Z) (s : string) : Z * string :=
  match s with
  | EmptyString => (acc, EmptyString)
  | String c rest =>
      match digit_in_base base c with
      | Some d => scan_in_base base (acc * base + d)%Z rest
      | None => (acc, s)
      end
  end.

(** A hexadecimal, octal or binary integer literal at the start of a
    string. *)
Definition non_decimal_literal (s : string) : option (Z * string) :=
  match s with
  | String c0 (String p (String c rest)) =>
      if Ascii.eqb c0 "0" then
        match base_of_prefix p with
        | Some base =>
            match digit_in_base base c with
            | Some _ => Some (scan_in_base base 0 (String c rest))
            | None => None
            end
        | None => None
        end
      else None
  | _ => None
  end.

Fixpoint drop_prefix (p s : string) : option string :=
  match p with
  | EmptyString => Some s
  | String a p' =>
      match s with
      | String b s' => if Ascii.eqb a b then drop_prefix p' s' else None
      | EmptyString => None
      end
  end.

(** What follows the sign: [Infinity] or a decimal literal, and then white
    space only. *)
Definition unsigned_literal (negative : bool) (s : string) : number :=
  match drop_prefix "Infinity" s with
  | Some rest => if all_whitespace rest then Infinity negative else NaN
  | None =>
      match decimal_literal s with
      | Some (M, E, rest) =>
          if all_whitespace rest then double_of_decimal negative M E else NaN
      | None => NaN
      end
  end.

(** String-to-number conversion: white space around a numeric literal is
    skipped, the empty string is zero, and what is not a numeric literal
    is not a number. *)
Definition string_to_number (s : string) : number :=
  match skip_whitespace s with
  | EmptyString => Finite false 0 0
  | String c rest as t =>
      match non_decimal_literal t with
      | Some (v, after) =>
          if all_whitespace after then double_of_decimal false v 0 else NaN
      | None =>
          if Ascii.eqb c "-" then unsigned_literal true rest
          else if Ascii.eqb c "+" then unsigned_literal false rest
          else unsigned_literal false t
      end
  end.

Definition id_to_string (i : pr_id) : string :=
  match i with
  | id_number n => number_to_string n
  | id_string s => s
  end.

(** [prefix + id] with [prefix] a string: string concatenation after
    converting [id] to a string. *)
Definition js_plus (prefix : string) (i : pr_id) : string :=
  (prefix ++ id_to_string i)%string.

(** A string that does not start with a decimal digit. *)
Definition starts_without_digit (s : string) : Prop :=
  match s with
  | EmptyString => True
  | String c _ => digit_of_char c = None
  end.

(** A string that does not start with the letter of a base prefix. *)
Definition second_ok (r : string) : Prop :=
  match r with
  | EmptyString => True
  | String p _ => base_of_prefix p = None
  end.

(** Whether an id is a value of JavaScript: any string, and the integers
    that are doubles. *)
Definition is_js_id (i : pr_id) : bool :=
  match i with
  | id_number n => is_double n
  | id_string _ => true
  end.

(** [i == j] on ids: two numbers are compared as numbers and two strings
    as strings; a number and a string are compared as numbers, after
    string-to-number conversion of the string.  [i != j] is its negation. *)
Definition loosely_equal (i j : pr_id) : bool :=
  match i, j with
  | id_number n, id_number m => (n =? m)%Z
  | id_string s, id_string t => (s =? t)%string
  | id_number n, id_string s => equals_integer (string_to_number s) n
  | id_string s, id_number n => equals_integer (string_to_number s) n
  end.

(** Truthiness of an optional id, as tested by [!result]: [undefined], [0]
    and the empty string are falsy. *)
Definition truthy_id (r : option pr_id) : bool :=
  match r with
  | None => false
  | Some (id_number n) => negb (n =? 0)%Z
  | Some (id_string s) => negb (s =? "")%string
  end.

(** Truthiness of a string, as tested by [!app_url]. *)
Definition truthy_string (s : string) : bool := negb (s =? "")%string.

(** A string between double quotes, as it appears inside a template. *)
Definition quoted (s : string) : string :=
  String "034"%char (s ++ String "034"%char EmptyString)%string.

(** *** [encodeURIComponent] *)

Definition hex_digit (n : N) : ascii :=
  ascii_of_N (if (n <? 10)%N then 48 + n else 55 + n)%N.

Definition uri_unreserved (c : ascii) : bool :=
  let n := N_of_ascii c in
  ((65 <=? n) && (n <=? 90) || (97 <=? n) && (n <=? 122) ||
   (48 <=? n) && (n <=? 57))%N
  || existsb (Ascii.eqb c)
       ["-"; "_"; "."; "!"; "~"; "*"; "'"; "("; ")"]%char.

Fixpoint encodeURIComponent (s : string) : string :=
  match s with
  | EmptyString => EmptyString
  | String c rest =>
      if uri_unreserved c then String c (encodeURIComponent rest)
      else
        let n := N_of_ascii c in
        String "%" (String (hex_digit (n / 16)) (String (hex_digit (n mod 16))
          (encodeURIComponent rest)))
  end.

(** ** Data model *)

(** The part of the webhook payload the handler reads:
    [pullrequest.{id, title, state}], [pullrequest.source.repository.full_name],
    [pullrequest.source.branch.name], [pullrequest.destination.branch.name]. *)
Module PullRequest.
Record t : Type := {
  id : pr_id;
  title : string;
  state : string;
  source_repository_full_name : string;
  source_branch_name : string;
  destination_branch_name : string
}.
End PullRequest.

(** [req.body]; [pullrequest] is [None] when the field is null or absent. *)
Record Request : Type := {
  body_pullrequest : option PullRequest.t
}.

(** A Heroku app, as listed by [GET /apps] and returned by [POST /apps]. *)
Module App.
Record t : Type := {
  name : string;
  web_url : string
}.
End App.

(** The [config] argument of the module.  [branch_regex] is the pattern; all
    the source does with it is [new RegExp(config.branch_regex).test(s)] on a
    fresh copy, so it is represented by its matching predicate. *)
Record Config : Type := {
  webhook_endpoint : string;
  bitbucket_user : string;
  bitbucket_password : string;
  bitbucket_email : string;
  bitbucket_key : string;
  bitbucket_secret : string;
  heroku_user : string;
  heroku_password : string;
  domain_prefix : string;
  branch_regex : string -> bool;
  env_vars : list (string * string)
}.

(** The argument [obj] of [create_or_update_app]. *)
Record Deployment : Type := {
  repo_full_name : string;
  deployable_branch : string;
  pullrequest_title : string;
  pullrequest_id : pr_id;
  app_name : string
}.

(** ** Providers *)

(** The requests the module sends. *)
Inductive call : Type :=
| bitbucket_getToken
    (* bitbucket_oauth2.ownerPassword.getToken(bitbucket_token_config, ...) *)
| bitbucket_get_pullrequests (url q authorization : string)
| bitbucket_post_comment (url content : string)
| heroku_post_authorizations
| heroku_get (path : string)
| heroku_post_apps (app : string)                 (* POST /apps, body {name} *)
| heroku_patch (path : string) (vars : list (string * string))
| heroku_post_builds (path tarball : string)      (* body {source_blob: {url}} *)
| heroku_delete (path : string).

(** What a provider answers: an error, or a result. *)
Inductive reply (A : Type) : Type :=
| failure
| success (a : A).
Arguments failure {A}.
Arguments success {A} a.

(** The body of the pull-request search, as [JSON.parse] sees it: not JSON,
    or a document whose [values] array holds pull requests with these ids
    (an entry without an id is [None]). *)
Inductive search_body : Type :=
| not_json
| json_values (values : list (option pr_id)).

(** The providers' side of one webhook delivery.
    - [getToken]: the token endpoint; on success the [access_token].
    - [get_pullrequests url q]: the pull-request search.
    - [post_comment url content]: the comment endpoint.
    - [post_authorizations]: Heroku's authorization endpoint; on success the
      response body, which carries [access_token.token] or does not.
    - [get_apps], [post_apps], [patch_config_vars], [post_builds],
      [delete_app]: the Heroku platform API, through the Heroku client. *)
Record World : Type := {
  getToken : reply string;
  get_pullrequests : string -> string -> reply search_body;
  post_comment : string -> string -> reply unit;
  post_authorizations : reply (option string);
  get_apps : reply (list App.t);
  post_apps : string -> reply App.t;
  patch_config_vars : string -> reply unit;
  post_builds : string -> string -> reply unit;
  delete_app : string -> reply unit
}.

(** ** Promises *)

Inductive event : Type :=
| Call (c : call)
| ConsoleError (e : error)       (* console.error(`Error occurred: ${err}`) *)
| Uncaught (e : error)           (* an exception nobody catches *)
| SendStatus (code : nat).       (* res.sendStatus(code) *)

Inductive settlement (A : Type) : Type :=
| Fulfilled (a : A)
| Rejected (e : error)
| Pending.
Arguments Fulfilled {A} a.
Arguments Rejected {A} e.
Arguments Pending {A}.

Definition Promise (A : Type) : Type := (list event * settlement A)%type.

Module PromiseOps.

Definition resolve {A} (a : A) : Promise A := ([], Fulfilled a).

Definition reject {A} (e : error) : Promise A := ([], Rejected e).

(** An exception thrown inside a Node-style callback: it escapes the
    promise under construction, which is then never settled. *)
Definition throw_in_callback {A} (e : error) : Promise A :=
  ([Uncaught e], Pending).

Definition emit (ev : event) : Promise unit := ([ev], Fulfilled tt).

(** [p.then(f)] *)
Definition and_then {A B} (p : Promise A) (f : A -> Promise B) : Promise B :=
  match p with
  | (t, Fulfilled a) => let (t', s) := f a in (t ++ t', s)
  | (t, Rejected e) => (t, Rejected e)
  | (t, Pending) => (t, Pending)
  end.

(** [p.catch(h)] *)
Definition catch {A} (p : Promise A) (h : error -> Promise A) : Promise A :=
  match p with
  | (t, Rejected e) => let (t', s) := h e in (t ++ t', s)
  | _ => p
  end.

(** A request whose callback settles the promise: the call is issued, and
    the reply decides between [reject(err)] and the continuation. *)
Definition request {A B} (c : call) (r : reply A) (k : A -> Promise B)
  : Promise B :=
  match r with
  | failure => ([Call c], Rejected RequestError)
  | success a => let (t, s) := k a in (Call c :: t, s)
  end.

End PromiseOps.
Import PromiseOps.

Notation "p >>= f" := (and_then p f) (at level 50, left associativity).
Notation "x <- p ;; k" := (and_then p (fun x => k))
  (at level 61, p at next level, right associativity).

(** ** Identifiers in scope *)

(** The bindings of [index.js] that a closure of the module can see: the four
    [require]d modules, the parameters of the exported function, and the
    [const]s declared in its body. *)
Definition module_bindings : list string :=
  [ "_"; "request"; "Heroku"; "Oauth2";
    "app"; "config";
    "bitbucket_oauth2"; "bitbucket_token_config"; "bitbucket_oauth";
    "heroku_oauth"; "get_pull_request_id"; "is_mergeable_on_qa_branch";
    "is_creatable_or_updatable"; "create_or_update_app"; "webhook" ]%string.

(** The globals of Node.js the file refers to. *)
Definition node_globals : list string :=
  [ "require"; "module"; "Promise"; "Buffer"; "JSON"; "RegExp"; "console";
    "encodeURIComponent" ]%string.

(** Resolution of an identifier inside the callback given to [getToken],
    whose own bindings are the executor's [resolve] and [reject] and the
    callback's [error] and [result].  Identifiers are case sensitive. *)
Definition in_scope (x : string) : bool :=
  existsb (String.eqb x)
    (["error"; "result"; "resolve"; "reject"]%string
       ++ module_bindings ++ node_globals).

(** ** The module *)

Section Deploify.

Variable config : Config.
Variable world : World.

(** Creates Bitbucket oauth token.  The success continuation is
    [resolve(oauth2.accessToken.create(result))]; evaluating it starts by
    resolving the identifier [oauth2]. *)
Definition bitbucket_oauth : Promise string :=
  request bitbucket_getToken (getToken world) (fun result =>
    if in_scope "oauth2" then resolve result
    else throw_in_callback ReferenceError).

(** Creates Heroku oauth token: resolves with [res.body]. *)
Definition heroku_oauth : Promise (option string) :=
  request heroku_post_authorizations (post_authorizations world) resolve.

(** [new Heroku({ token: result.access_token.token })], inside a [then]
    callback: reading [.token] of an absent [access_token] throws, which
    rejects the chain. *)
Definition new_Heroku (result : option string) : Promise string :=
  match result with
  | None => reject TypeError
  | Some token => resolve token
  end.

(** [_.at(JSON.parse(res.body), "values[0].id")[0]] *)
Definition first_pull_request_id (values : list (option pr_id)) : option pr_id :=
  match values with
  | [] => None
  | v :: _ => v
  end.

(** Gets the ID of a pull request. *)
Definition get_pull_request_id (repository branch : string)
  : Promise (option pr_id) :=
  catch
    (result <- bitbucket_oauth ;;
     let url := ("https://api.bitbucket.org/2.0/repositories/" ++ repository
                 ++ "/pullrequests")%string in
     let q := ("source.branch.name=" ++ quoted branch
               ++ " AND state = " ++ quoted "OPEN")%string in
     request
       (bitbucket_get_pullrequests url q ("Bearer " ++ result)%string)
       (get_pullrequests world url q)
       (fun body =>
          match body with
          | not_json => throw_in_callback SyntaxError
          | json_values values => resolve (first_pull_request_id values)
          end))
    (fun error => reject error).

(** Checks whether the branch is going to be merged on a QA branch. *)
Definition is_mergeable_on_qa_branch (source destination : string) : bool :=
  negb (branch_regex config source) && branch_regex config destination.

(** Checks whether the pull request is created or updated.  The source
    returns [pullrequest && (...)]; its only use is as an [if] condition, so
    the result is given by its truthiness. *)
Definition is_creatable_or_updatable (pullrequest : option PullRequest.t)
    (source destination : string) : bool :=
  match pullrequest with
  | None => false
  | Some pullrequest =>
      (PullRequest.state pullrequest =? "OPEN")%string
      || ((PullRequest.state pullrequest =? "MERGED")%string
          && is_mergeable_on_qa_branch source destination)
  end.

(** The credentials part of the URLs. *)
Definition credentials : string :=
  (encodeURIComponent (bitbucket_user config) ++ ":"
   ++ encodeURIComponent (bitbucket_password config))%string.

Definition tarball_url (obj : Deployment) : string :=
  ("https://" ++ credentials ++ "@bitbucket.org/" ++ repo_full_name obj
   ++ "/get/" ++ deployable_branch obj ++ ".tar.gz")%string.

Definition comment_url (obj : Deployment) : string :=
  ("https://" ++ credentials ++ "@api.bitbucket.org/1.0/repositories/"
   ++ repo_full_name obj ++ "/pullrequests/"
   ++ id_to_string (pullrequest_id obj) ++ "/comments")%string.

Definition comment_content (obj : Deployment) (app_url : string) : string :=
  ("The pull request **" ++ pullrequest_title obj
   ++ "** is being deployed to [" ++ app_url ++ "](" ++ app_url ++ "). "
   ++ "Please hang on while the deployment is completed.")%string.

(** Creates the app if it doesn't exist, otherwise it updates it.  The
    closure variables [heroku], [match] and [app_url] are each assigned at
    most once, before any step that reads them; they are the bound names
    below ([app_url] stays [None], that is [undefined], when [match] was
    found). *)
Definition create_or_update_app (obj : Deployment) : Promise unit :=
  let tarball := tarball_url obj in
  catch
    (result <- heroku_oauth ;;
     heroku <- new_Heroku result ;;
     apps <- request (heroku_get "/apps") (get_apps world) resolve ;;
     let match_ :=
       find (fun app => (App.name app =? app_name obj)%string) apps in
     app <- match match_ with
            | None =>
                request (heroku_post_apps (app_name obj))
                        (post_apps world (app_name obj)) resolve
            | Some found => resolve found
            end ;;
     let app_url :=
       match match_ with
       | None => Some (App.web_url app)
       | Some _ => None
       end in
     _ <- match match_ with
          | None =>
              request
                (heroku_patch ("/apps/" ++ app_name obj ++ "/config-vars")%string
                              (env_vars config))
                (patch_config_vars world (app_name obj)) resolve
          | Some _ => resolve tt
          end ;;
     _ <- request
            (heroku_post_builds ("/apps/" ++ app_name obj ++ "/builds")%string
                                tarball)
            (post_builds world (app_name obj) tarball) resolve ;;
     match app_url with
     | Some url =>
         if truthy_string url then
           let content := comment_content obj url in
           request (bitbucket_post_comment (comment_url obj) content)
                   (post_comment world (comment_url obj) content) resolve
         else resolve tt
     | None => resolve tt
     end)
    (fun err => emit (ConsoleError err)).

(** How a call of the handler ends: with an exception thrown out of it
    before anything was done, or by returning, the events of the promise
    chain it started (if any) following. *)
Inductive completion : Type :=
| Threw (e : error)
| Ran (events : list event).

Definition sendStatus (code : nat) : Promise unit := emit (SendStatus code).

(** The continuation of the pull-request lookup in the handler (the first
    [then] after [get_pull_request_id]). *)
Definition deploy_looked_up (pullrequest : PullRequest.t)
    (deployable_branch : string) (result : option pr_id) : Promise unit :=
  match result with
  | Some found =>
      if truthy_id result then
        let pullrequest_id := found in
        let app_name := js_plus (domain_prefix config) pullrequest_id in
        create_or_update_app
          {| repo_full_name := PullRequest.source_repository_full_name pullrequest;
             deployable_branch := deployable_branch;
             pullrequest_title := PullRequest.title pullrequest;
             pullrequest_id := pullrequest_id;
             app_name := app_name |}
      else resolve tt
  | None => resolve tt
  end.

(** The branch of the handler for a declined (or otherwise closed) pull
    request. *)
Definition delete_app_named (app_name : string) : Promise unit :=
  catch
    (result <- heroku_oauth ;;
     heroku <- new_Heroku result ;;
     apps <- request (heroku_get "/apps") (get_apps world) resolve ;;
     let match_ := find (fun app => (App.name app =? app_name)%string) apps in
     _ <- match match_ with
          | Some _ =>
              request (heroku_delete ("/apps/" ++ app_name)%string)
                      (delete_app world app_name) resolve
          | None => resolve tt
          end ;;
     sendStatus 200)
    (fun error => sendStatus 500).

(** Bitbucket webhook. *)
Definition webhook (req : Request) : completion :=
  match body_pullrequest req with
  | None =>
      (* req.body.pullrequest.source: property read on null or undefined *)
      Threw TypeError
  | Some pullrequest =>
      let domain_prefix := domain_prefix config in
      let repo_full_name := PullRequest.source_repository_full_name pullrequest in
      let branch_name := PullRequest.source_branch_name pullrequest in
      let destination_branch_name :=
        PullRequest.destination_branch_name pullrequest in
      let pullrequest_title := PullRequest.title pullrequest in
      let pullrequest_id := PullRequest.id pullrequest in
      let app_name := js_plus domain_prefix pullrequest_id in
      if is_creatable_or_updatable (body_pullrequest req) branch_name
           destination_branch_name
      then
        let deployable_branch := branch_name in
        if negb (branch_regex config branch_name)
           && (PullRequest.state pullrequest =? "OPEN")%string
        then Ran (fst (sendStatus 200))
        else if is_mergeable_on_qa_branch branch_name destination_branch_name
        then
          let deployable_branch := destination_branch_name in
          Ran (fst (catch
            (get_pull_request_id repo_full_name destination_branch_name
               >>= deploy_looked_up pullrequest deployable_branch
               >>= (fun _ => sendStatus 200))
            (fun error => sendStatus 500)))
        else
          Ran (fst (catch
            (create_or_update_app
               {| repo_full_name := repo_full_name;
                  deployable_branch := deployable_branch;
                  pullrequest_title := pullrequest_title;
                  pullrequest_id := pullrequest_id;
                  app_name := app_name |}
               >>= (fun _ => sendStatus 200))
            (fun error => sendStatus 500)))
      else if match body_pullrequest req with
              | Some pr => negb (PullRequest.state pr =? "OPEN")%string
              | None => false
              end
      then Ran (fst (delete_app_named app_name))
      else Ran (fst (sendStatus 400))
  end.

End Deploify.

(** ** Observations on a run *)

Definition events_of (c : completion) : list event :=
  match c with
  | Threw _ => []
  | Ran events => events
  end.

(** The status the handler answers with: the first [sendStatus] of the run. *)
Fixpoint response (events : list event) : option nat :=
  match events with
  | [] => None
  | SendStatus code :: _ => Some code
  | _ :: rest => response rest
  end.

(** The provider requests of a run, in order. *)
Fixpoint calls (events : list event) : list call :=
  match events with
  | [] => []
  | Call c :: rest => c :: calls rest
  | _ :: rest => calls rest
  end.

Definition is_create (c : call) : bool :=
  match c with heroku_post_apps _ => true | _ => false end.
Definition is_config_patch (c : call) : bool :=
  match c with heroku_patch _ _ => true | _ => false end.
Definition is_build (c : call) : bool :=
  match c with heroku_post_builds _ _ => true | _ => false end.
Definition is_comment (c : call) : bool :=
  match c with bitbucket_post_comment _ _ => true | _ => false end.
Definition is_delete (c : call) : bool :=
  match c with heroku_delete _ => true | _ => false end.

(** The requests that change something at a provider. *)
Definition is_mutation (c : call) : bool :=
  is_create c || is_config_patch c || is_build c || is_comment c
  || is_delete c.

Definition count (p : call -> bool) (events : list event) : nat :=
  length (filter p (calls events)).

(** Whether the listing contains an app of that name. *)
Definition listed (app_name : string) (apps : list App.t) : bool :=
  existsb (fun app => (App.name app =? app_name)%string) apps.

(** Whether Heroku's authorization yielded a token. *)
Definition authorized (world : World) : bool :=
  match post_authorizations world with
  | success (Some _) => true
  | _ => false
  end.

(** ** Fixtures: the configuration of the README *)

(** The pattern of the README, a caret followed by [qa-] and a group that
    takes any rest: it matches exactly the strings that start with [qa-]. *)
Definition qa_regex (branch : string) : bool := String.prefix "qa-" branch.

Definition readme_config : Config :=
  {| webhook_endpoint := "/webhook/bitbucket";
     bitbucket_user := "foo";
     bitbucket_password := "p@ss word";
     bitbucket_email := "foo@bar.com";
     bitbucket_key := "key";
     bitbucket_secret := "secret";
     heroku_user := "foo@bar.com";
     heroku_password := "hunter2";
     domain_prefix := "fooqapreview-";
     branch_regex := qa_regex;
     env_vars := [("QA", "true")] |}.

Definition pull_request (i : Z) (st source destination : string)
  : PullRequest.t :=
  {| PullRequest.id := id_number i;
     PullRequest.title := "Add widgets";
     PullRequest.state := st;
     PullRequest.source_repository_full_name := "acme/shop";
     PullRequest.source_branch_name := source;
     PullRequest.destination_branch_name := destination |}.

Definition event_for (pr : PullRequest.t) : Request :=
  {| body_pullrequest := Some pr |}.

Definition app_of (n : string) : App.t :=
  {| App.name := n;
     App.web_url := ("https://" ++ n ++ ".herokuapp.com/")%string |}.

(** The deployment the handler asks for when it deploys the pull request's
    own branch. *)
Definition deployment_of (config : Config) (pr : PullRequest.t) : Deployment :=
  {| repo_full_name := PullRequest.source_repository_full_name pr;
     deployable_branch := PullRequest.source_branch_name pr;
     pullrequest_title := PullRequest.title pr;
     pullrequest_id := PullRequest.id pr;
     app_name := js_plus (domain_prefix config) (PullRequest.id pr) |}.

(** Providers that answer every request successfully: Heroku lists [apps],
    Bitbucket's search returns the pull requests with ids [found]. *)
Definition healthy (apps : list App.t) (found : list (option pr_id)) : World :=
  {| getToken := success "bb-token";
     get_pullrequests := fun _ _ => success (json_values found);
     post_comment := fun _ _ => success tt;
     post_authorizations := success (Some "heroku-token");
     get_apps := success apps;
     post_apps := fun n => success (app_of n);
     patch_config_vars := fun _ => success tt;
     post_builds := fun _ _ => success tt;
     delete_app := fun _ => success tt |}.

(** The same, except that listing the apps fails. *)
Definition listing_down (w : World) : World :=
  {| getToken := getToken w;
     get_pullrequests := get_pullrequests w;
     post_comment := post_comment w;
     post_authorizations := post_authorizations w;
     get_apps := failure;
     post_apps := post_apps w;
     patch_config_vars := patch_config_vars w;
     post_builds := post_builds w;
     delete_app := delete_app w |}.

(** ** Further observations *)

(** The requests of a run that updates an existing app, in order. *)
Definition update_calls (config : Config) (obj : Deployment) : list call :=
  [ heroku_post_authorizations;
    heroku_get "/apps";
    heroku_post_builds ("/apps/" ++ app_name obj ++ "/builds")%string
                       (tarball_url config obj) ].

(** The requests of a run that creates the app, up to the build. *)
Definition create_calls (config : Config) (obj : Deployment) : list call :=
  [ heroku_post_authorizations;
    heroku_get "/apps";
    heroku_post_apps (app_name obj);
    heroku_patch ("/apps/" ++ app_name obj ++ "/config-vars")%string
                 (env_vars config);
    heroku_post_builds ("/apps/" ++ app_name obj ++ "/builds")%string
                       (tarball_url config obj) ].

(** The comment announcing the app at [url]. *)
Definition comment_call (config : Config) (obj : Deployment) (url : string)
  : call :=
  bitbucket_post_comment (comment_url config obj) (comment_content obj url).

(** Number of occurrences of a character in a string. *)
Fixpoint occurrences (c : ascii) (s : string) : nat :=
  match s with
  | EmptyString => 0
  | String a rest =>
      (if Ascii.eqb a c then 1 else 0) + occurrences c rest
  end.

(** The two parts of a string around the first occurrence of [c]. *)
Fixpoint split_at_first (c : ascii) (s : string) : option (string * string) :=
  match s with
  | EmptyString => None
  | String a rest =>
      if Ascii.eqb a c then Some (EmptyString, rest)
      else match split_at_first c rest with
           | Some (before, after) => Some (String a before, after)
           | None => None
           end
  end.

(** [s] without the leading [p], when it starts with [p]. *)
Fixpoint strip_prefix (p s : string) : option string :=
  match p with
  | EmptyString => Some s
  | String a p' =>
      match s with
      | String b s' => if Ascii.eqb a b then strip_prefix p' s' else None
      | EmptyString => None
      end
  end.

(** The pull request [pr] in another state. *)
Definition in_state (st : string) (pr : PullRequest.t) : PullRequest.t :=
  {| PullRequest.id := PullRequest.id pr;
     PullRequest.title := PullRequest.title pr;
     PullRequest.state := st;
     PullRequest.source_repository_full_name :=
       PullRequest.source_repository_full_name pr;
     PullRequest.source_branch_name := PullRequest.source_branch_name pr;
     PullRequest.destination_branch_name :=
       PullRequest.destination_branch_name pr |}.

(** The app list of a Heroku account after the requests of a run, all of
    which it accepted: [POST /apps] adds the app, [DELETE /apps/name]
    removes it, nothing else changes the list.  Together with [healthy]
    this stands for the provider between two deliveries. *)
Fixpoint heroku_after (apps : list App.t) (events : list event) : list App.t :=
  match events with
  | [] => apps
  | Call (heroku_post_apps n) :: rest => heroku_after (apps ++ [app_of n]) rest
  | Call (heroku_delete path) :: rest =>
      heroku_after
        match strip_prefix "/apps/" path with
        | Some n => filter (fun app => negb (App.name app =? n)%string) apps
        | None => apps
        end rest
  | _ :: rest => heroku_after apps rest
  end.

(** Whether the provider accepted a request of a run for [obj]: the reply
    was not an error and, for Heroku's authorization, carried a token. *)
Definition accepted (world : World) (obj : Deployment) (c : call) : bool :=
  match c with
  | bitbucket_getToken =>
      match getToken world with success _ => true | failure => false end
  | bitbucket_get_pullrequests url q _ =>
      match get_pullrequests world url q with
      | success _ => true
      | failure => false
      end
  | bitbucket_post_comment url content =>
      match post_comment world url content with
      | success _ => true
      | failure => false
      end
  | heroku_post_authorizations => authorized world
  | heroku_get _ =>
      match get_apps world with success _ => true | failure => false end
  | heroku_post_apps n =>
      match post_apps world n with success _ => true | failure => false end
  | heroku_patch _ _ =>
      match patch_config_vars world (app_name obj) with
      | success _ => true
      | failure => false
      end
  | heroku_post_builds _ tarball =>
      match post_builds world (app_name obj) tarball with
      | success _ => true
      | failure => false
      end
  | heroku_delete _ =>
      match delete_app world (app_name obj) with
      | success _ => true
      | failure => false
      end
  end.

(** ** Bodies with missing objects *)

(** A request body as it may arrive: the objects the handler reads through
    at its start, [pullrequest], [source], [source.repository],
    [source.branch], [destination] and [destination.branch], may each be
    missing ([None]: null, absent, or not an object). *)
Module Payload.
Record repository : Type := { full_name : string }.
Record branch : Type := { name : string }.
Record source : Type := {
  source_repository : option repository;
  source_branch : option branch
}.
Record destination : Type := { destination_branch : option branch }.
Record pullrequest : Type := {
  id : pr_id;
  title : string;
  state : string;
  pr_source : option source;
  pr_destination : option destination
}.
Record body : Type := { body_pullrequest : option pullrequest }.
End Payload.

(** The reads of [source.repository.full_name], [source.branch.name] and
    [destination.branch.name] that open the handler: each throws a
    TypeError when the object it reads a property of is missing, and then
    there is no result. *)
Definition read_pullrequest (p : Payload.pullrequest) : option PullRequest.t :=
  match Payload.pr_source p with
  | None => None
  | Some source =>
      match Payload.source_repository source with
      | None => None
      | Some repository =>
          match Payload.source_branch source with
          | None => None
          | Some source_branch =>
              match Payload.pr_destination p with
              | None => None
              | Some destination =>
                  match Payload.destination_branch destination with
                  | None => None
                  | Some destination_branch =>
                      Some
                        {| PullRequest.id := Payload.id p;
                           PullRequest.title := Payload.title p;
                           PullRequest.state := Payload.state p;
                           PullRequest.source_repository_full_name :=
                             Payload.full_name repository;
                           PullRequest.source_branch_name :=
                             Payload.name source_branch;
                           PullRequest.destination_branch_name :=
                             Payload.name destination_branch |}
                  end
              end
          end
      end
  end.

(** The handler on such a body: it throws at its first statements when one
    of those objects is missing, and otherwise goes on as [webhook]. *)
Definition webhook_on_body (config : Config) (world : World)
    (body : Payload.body) : completion :=
  match Payload.body_pullrequest body with
  | None => Threw TypeError
  | Some p =>
      match read_pullrequest p with
      | None => Threw TypeError
      | Some pr => webhook config world {| body_pullrequest := Some pr |}
      end
  end.

(** * Properties *)

(** ** Promise chains *)

(** A flat chain [p.then(f).then(g)] and the nested [p.then(x => f(x).then(g))]
    emit the same events and settle alike, so reading the bound names of a
    chain as nested scopes loses nothing. *)
Lemma and_then_assoc {A B C} (p : Promise A) (f : A -> Promise B)
    (g : B -> Promise C) :
  p >>= f >>= g = p >>= (fun x => f x >>= g).
Proof.
  destruct p as [t [a | e | ]]; simpl; try reflexivity.
  destruct (f a) as [t' [b | e | ]]; simpl; try reflexivity.
  destruct (g b) as [t'' s]. now rewrite app_assoc.
Qed.

Lemma resolve_and_then {A B} (a : A) (f : A -> Promise B) :
  resolve a >>= f = f a.
Proof.
  unfold resolve; simpl. now destruct (f a).
Qed.

(** ** Strings *)

Lemma append_cancel_l (p a b : string) :
  (p ++ a)%string = (p ++ b)%string -> a = b.
Proof.
  induction p as [| c p IH]; simpl; intros H.
  - exact H.
  - injection H as H. now apply IH.
Qed.

Lemma js_plus_inj (prefix : string) (i j : pr_id) :
  js_plus prefix i = js_plus prefix j -> id_to_string i = id_to_string j.
Proof.
  unfold js_plus. apply append_cancel_l.
Qed.

Lemma find_listed (n : string) (apps : list App.t) :
  listed n apps = true ->
  exists found, find (fun app => (App.name app =? n)%string) apps = Some found.
Proof.
  unfold listed. induction apps as [| a apps IH]; simpl; intros H.
  - discriminate.
  - destruct (App.name a =? n)%string.
    + now exists a.
    + now apply IH.
Qed.

Lemma find_not_listed (n : string) (apps : list App.t) :
  listed n apps = false ->
  find (fun app => (App.name app =? n)%string) apps = None.
Proof.
  unfold listed. induction apps as [| a apps IH]; simpl; intros H.
  - reflexivity.
  - destruct (App.name a =? n)%string; [discriminate | now apply IH].
Qed.

(** ** Branch policy *)

(** C2.  A pair of branches is "mergeable on a QA branch" exactly when the
    configured pattern matches the destination and does not match the
    source. *)
Theorem is_mergeable_on_qa_branch_iff (config : Config)
    (source destination : string) :
  is_mergeable_on_qa_branch config source destination = true
  <-> branch_regex config destination = true
      /\ branch_regex config source = false.
Proof.
  unfold is_mergeable_on_qa_branch.
  rewrite andb_true_iff, negb_true_iff. tauto.
Qed.

(** C1.  The gate is false without a pull request; true for an OPEN one;
    for a MERGED one it is true exactly when source and destination are
    mergeable on a QA branch; false for every other state. *)
Theorem is_creatable_or_updatable_cases (config : Config)
    (source destination : string) :
  is_creatable_or_updatable config None source destination = false
  /\ (forall pr, PullRequest.state pr = "OPEN" ->
        is_creatable_or_updatable config (Some pr) source destination = true)
  /\ (forall pr, PullRequest.state pr = "MERGED" ->
        (is_creatable_or_updatable config (Some pr) source destination = true
         <-> is_mergeable_on_qa_branch config source destination = true))
  /\ (forall pr, PullRequest.state pr <> "OPEN" ->
        PullRequest.state pr <> "MERGED" ->
        is_creatable_or_updatable config (Some pr) source destination = false).
Proof.
  repeat split; simpl; try intros pr H.
  - now rewrite H.
  - rewrite H; simpl. tauto.
  - rewrite H; simpl. tauto.
  - intros H'. apply String.eqb_neq in H, H'. now rewrite H, H'.
Qed.

Lemma is_creatable_or_updatable_cases_witness :
  is_creatable_or_updatable readme_config
    (Some (pull_request 42 "OPEN" "feature-x" "main")) "feature-x" "main" = true
  /\ (is_creatable_or_updatable readme_config
        (Some (pull_request 5 "MERGED" "feature-x" "qa-main"))
        "feature-x" "qa-main" = true
      <-> is_mergeable_on_qa_branch readme_config "feature-x" "qa-main" = true)
  /\ is_creatable_or_updatable readme_config
       (Some (pull_request 7 "DECLINED" "qa-foo" "main")) "qa-foo" "main" = false.
Proof.
  split; [| split].
  - destruct (is_creatable_or_updatable_cases readme_config "feature-x" "main")
      as (_ & Hopen & _).
    apply Hopen. reflexivity.
  - destruct (is_creatable_or_updatable_cases readme_config "feature-x" "qa-main")
      as (_ & _ & Hmerged & _).
    apply Hmerged. reflexivity.
  - destruct (is_creatable_or_updatable_cases readme_config "qa-foo" "main")
      as (_ & _ & _ & Hother).
    apply Hother; simpl; discriminate.
Defined.

(** ** App naming *)

(** The name depends on the prefix and on the characters the id is written
    with, and on nothing else. *)
Lemma app_name_eq_iff (prefix : string) (i j : pr_id) :
  js_plus prefix i = js_plus prefix j <-> id_to_string i = id_to_string j.
Proof.
  split.
  - apply js_plus_inj.
  - unfold js_plus. now intros ->.
Qed.

(** *** Numbers and strings that spell them *)


Lemma fold_choice {A} (g : A -> A -> bool) (l : list A) (x0 : A) :
  fold_left (fun b d => if g d b then d else b) l x0 = x0
  \/ In (fold_left (fun b d => if g d b then d else b) l x0) l.
Proof.
  revert x0. induction l as [| a l IH]; intros x0; simpl.
  - now left.
  - destruct (IH (if g a x0 then a else x0)) as [E | I].
    + rewrite E. destruct (g a x0); [right; now left | now left].
    + right. now right.
Qed.

Lemma shortest_accepted (x : Z) :
  (0 < x)%Z -> is_double x = true -> accepts x (shortest x) = true.
Proof.
  intros P D. unfold shortest.
  destruct (fold_choice (better x) (filter (accepts x) (candidates x)) x)
    as [E | I].
  - rewrite E. unfold accepts. unfold is_double in D.
    apply Z.ltb_lt in P as P'. rewrite P'. simpl.
    assert (N : (x <? 0)%Z = false) by (apply Z.ltb_ge; lia).
    now rewrite N, Z.abs_eq in D by lia.
  - now apply filter_In in I.
Qed.

Lemma significand_spec (fuel : nat) (d : Z) :
  (significand fuel d * 10 ^ Z.of_nat (trailing_zeros fuel d))%Z = d.
Proof.
  revert d. induction fuel as [| fuel IH]; intros d; simpl.
  - lia.
  - destruct (d mod 10 =? 0)%Z eqn:M.
    + apply Z.eqb_eq in M.
      rewrite Nat2Z.inj_succ, Z.pow_succ_r by lia.
      rewrite Z.mul_assoc, (Z.mul_comm _ 10), <- Z.mul_assoc, IH.
      pose proof (Z.div_mod d 10 ltac:(lia)). lia.
    + simpl. lia.
Qed.

Lemma significand_pos (fuel : nat) (d : Z) :
  (0 < d)%Z -> (0 < significand fuel d)%Z.
Proof.
  revert d. induction fuel as [| fuel IH]; intros d P; simpl; [exact P |].
  destruct (d mod 10 =? 0)%Z eqn:M; [| exact P].
  apply IH. apply Z.eqb_eq in M.
  pose proof (Z.div_mod d 10 ltac:(lia)). lia.
Qed.

Lemma of_uint_digits (d : Z) : (0 <= d)%Z -> Z.of_uint (decimal_digits d) = d.
Proof.
  intros P. unfold decimal_digits, Z.of_uint.
  change (Pos.of_uint (N.to_uint (Z.to_N d))) with (N.of_uint (N.to_uint (Z.to_N d))).
  rewrite DecimalN.Unsigned.of_to. now apply Z2N.id.
Qed.

Lemma digits_not_nil (d : Z) : decimal_digits d <> Decimal.Nil.
Proof.
  unfold decimal_digits. destruct (Z.to_N d) as [| p]; simpl.
  - discriminate.
  - apply DecimalPos.Unsigned.to_uint_nonnil.
Qed.

Lemma iter_mul10 (n : nat) (x : Z) :
  Nat.iter n (Z.mul 10) x = (x * 10 ^ Z.of_nat n)%Z.
Proof.
  induction n as [| n IH].
  - change (10 ^ Z.of_nat 0)%Z with 1%Z. now rewrite Z.mul_1_r.
  - rewrite Nat2Z.inj_succ, Z.pow_succ_r by lia.
    change (Nat.iter (S n) (Z.mul 10) x)
      with (10 * Nat.iter n (Z.mul 10) x)%Z.
    rewrite IH. ring.
Qed.

(** Digits in strings. *)

Lemma scan_no_digit (r : string) :
  starts_without_digit r -> scan_digits r = (Decimal.Nil, r).
Proof.
  destruct r as [| c r]; simpl; [reflexivity |].
  now intros ->.
Qed.

Lemma scan_string_of_uint (u : Decimal.uint) (r : string) :
  starts_without_digit r ->
  scan_digits (NilEmpty.string_of_uint u ++ r) = (u, r).
Proof.
  intros H. induction u; simpl; rewrite ?IHu; try reflexivity.
  now apply scan_no_digit.
Qed.

Lemma append_empty (s : string) : (s ++ "")%string = s.
Proof.
  induction s as [| c s IH]; simpl; [reflexivity | now rewrite IH].
Qed.

Lemma scan_string_of_uint_end (u : Decimal.uint) :
  scan_digits (NilEmpty.string_of_uint u) = (u, EmptyString).
Proof.
  rewrite <- (append_empty (NilEmpty.string_of_uint u)).
  now apply scan_string_of_uint.
Qed.

Lemma string_of_uint_head (u : Decimal.uint) :
  u <> Decimal.Nil ->
  exists c rest, NilEmpty.string_of_uint u = String c rest
                 /\ digit_of_char c <> None.
Proof.
  destruct u; intros H; try (now elim H); simpl; eexists _, _;
    (split; [reflexivity | discriminate]).
Qed.

(** What the parser does in front of a digit. *)
Lemma digit_facts (c : ascii) :
  digit_of_char c <> None ->
  is_ascii_space c = false
  /\ (forall c2, is_space_2 c c2 = false)
  /\ (forall c2 c3, is_space_3 c c2 c3 = false)
  /\ Ascii.eqb c "-" = false /\ Ascii.eqb c "+" = false
  /\ Ascii.eqb "I" c = false
  /\ base_of_prefix c = None.
Proof.
  destruct c as [[] [] [] [] [] [] [] []]; cbn; intros H;
    try (now elim H); repeat split; reflexivity.
Qed.

Lemma head_tail (u : Decimal.uint) :
  u <> Decimal.Nil ->
  Decimal.app (head_digit u) (tail_digits u) = u
  /\ Decimal.nb_digits u = S (Decimal.nb_digits (tail_digits u))
  /\ head_digit u <> Decimal.Nil.
Proof.
  destruct u; intros H; try (now elim H); repeat split; discriminate.
Qed.

Lemma is_nil_false (u : Decimal.uint) : u <> Decimal.Nil -> is_nil u = false.
Proof.
  destruct u; intros H; try (now elim H); reflexivity.
Qed.

Lemma is_nil_true (u : Decimal.uint) : is_nil u = true -> u = Decimal.Nil.
Proof.
  destruct u; intros H; try discriminate; reflexivity.
Qed.

Lemma skip_whitespace_digit (c : ascii) (r : string) :
  digit_of_char c <> None -> skip_whitespace (String c r) = String c r.
Proof.
  intros H. destruct (digit_facts c H) as (H1 & H2 & H3 & _).
  simpl. rewrite H1.
  destruct r as [| c2 r]; [reflexivity |]. rewrite H2.
  destruct r as [| c3 r]; [reflexivity |]. now rewrite H3.
Qed.

Lemma non_decimal_none (c : ascii) (r : string) :
  second_ok r -> non_decimal_literal (String c r) = None.
Proof.
  destruct r as [| p [| c' r]]; simpl; try reflexivity.
  intros ->. now destruct (Ascii.eqb c "0").
Qed.

Lemma parse_plain (negative : bool) (u : Decimal.uint) :
  u <> Decimal.Nil ->
  unsigned_literal negative (NilEmpty.string_of_uint u)
  = double_of_decimal negative (Z.of_uint u) 0.
Proof.
  intros N. unfold unsigned_literal.
  destruct (string_of_uint_head u N) as (c & rest & E & D).
  destruct (digit_facts c D) as (_ & _ & _ & _ & _ & I & _).
  assert (P : drop_prefix "Infinity" (NilEmpty.string_of_uint u) = None).
  { rewrite E. cbn [drop_prefix]. now rewrite I. }
  rewrite P. unfold decimal_literal.
  rewrite scan_string_of_uint_end. cbn [exponent_part].
  rewrite (is_nil_false u N). cbn.
  now rewrite DecimalFacts.app_nil_r.
Qed.

Lemma parse_exponent (negative : bool) (h f x : Decimal.uint) :
  h <> Decimal.Nil -> x <> Decimal.Nil ->
  unsigned_literal negative
    (NilEmpty.string_of_uint h
     ++ (if is_nil f then "" else "." ++ NilEmpty.string_of_uint f)
     ++ "e+" ++ NilEmpty.string_of_uint x)
  = double_of_decimal negative (Z.of_uint (Decimal.app h f))
      (Z.of_uint x - Z.of_nat (Decimal.nb_digits f)).
Proof.
  intros H X. unfold unsigned_literal.
  destruct (string_of_uint_head h H) as (c & rest & E & D).
  destruct (digit_facts c D) as (_ & _ & _ & _ & _ & I & _).
  assert (P : forall t,
             drop_prefix "Infinity" (NilEmpty.string_of_uint h ++ t) = None).
  { intros t. rewrite E. cbn [append drop_prefix]. now rewrite I. }
  rewrite P. unfold decimal_literal.
  destruct (is_nil f) eqn:F.
  - apply is_nil_true in F. subst f.
    rewrite scan_string_of_uint by reflexivity.
    cbn [append]. rewrite (is_nil_false h H). cbn [andb is_nil].
    unfold exponent_part. cbn [Ascii.eqb Bool.eqb orb].
    rewrite scan_string_of_uint_end, (is_nil_false x X).
    cbn. now rewrite DecimalFacts.app_nil_r.
  - rewrite scan_string_of_uint by reflexivity.
    cbn [append].
    change (String "." (NilEmpty.string_of_uint f
                        ++ String "e" (String "+" (NilEmpty.string_of_uint x))))
      with (String "." (NilEmpty.string_of_uint f
                        ++ ("e+" ++ NilEmpty.string_of_uint x))).
    rewrite scan_string_of_uint by reflexivity.
    rewrite (is_nil_false h H). cbn [andb].
    unfold exponent_part. cbn [append Ascii.eqb Bool.eqb orb].
    rewrite scan_string_of_uint_end, (is_nil_false x X).
    cbn. reflexivity.
Qed.

Lemma double_of_decimal_scaled (negative : bool) (M : Z) (E : nat) :
  (0 < M)%Z ->
  double_of_decimal negative M (Z.of_nat E)
  = double_of_decimal negative (M * 10 ^ Z.of_nat E) 0.
Proof.
  intros P. unfold double_of_decimal.
  assert (Q : (0 < M * 10 ^ Z.of_nat E)%Z).
  { apply Z.mul_pos_pos; [exact P |]. apply Z.pow_pos_nonneg; lia. }
  destruct (Z.eqb_spec M 0) as [-> | _]; [lia |].
  destruct (Z.eqb_spec (M * 10 ^ Z.of_nat E) 0) as [Z0 | _]; [lia |].
  destruct (Z.leb_spec 0 (Z.of_nat E)); [| lia].
  change (0 <=? 0)%Z with true. cbv iota.
  now rewrite Z.pow_0_r, Z.mul_1_r.
Qed.

Lemma print_parse (negative : bool) (d : Z) :
  (0 < d)%Z ->
  unsigned_literal negative (print_positive d)
  = double_of_decimal negative d 0.
Proof.
  intros P. unfold print_positive.
  pose proof (significand_spec (digit_count d) d) as V.
  pose proof (significand_pos (digit_count d) d P) as Spos.
  set (s := significand (digit_count d) d) in *.
  set (tz := trailing_zeros (digit_count d) d) in *.
  destruct (digit_count s + tz <=? 21)%nat.
  - assert (E : Z.of_uint (Decimal.app (decimal_digits s)
                             (Nat.iter tz Decimal.D0 Decimal.Nil)) = d).
    { rewrite DecimalZ.of_uint_iter_D0, iter_mul10, of_uint_digits by lia.
      exact V. }
    rewrite parse_plain.
    + now rewrite E.
    + intros N. rewrite N in E. cbn in E. lia.
  - pose proof (digits_not_nil s) as N.
    destruct (head_tail (decimal_digits s) N) as (A & K & H).
    rewrite parse_exponent by (exact H || apply digits_not_nil).
    rewrite A, !of_uint_digits by lia.
    unfold digit_count at 1. rewrite K.
    replace (Z.of_nat (S (Decimal.nb_digits (tail_digits (decimal_digits s))) + tz - 1)
             - Z.of_nat (Decimal.nb_digits (tail_digits (decimal_digits s))))%Z
      with (Z.of_nat tz) by lia.
    rewrite double_of_decimal_scaled by exact Spos.
    now rewrite V.
Qed.

Lemma string_of_uint_shape (u : Decimal.uint) :
  u <> Decimal.Nil ->
  exists c r, NilEmpty.string_of_uint u = String c r
              /\ digit_of_char c <> None /\ second_ok r.
Proof.
  destruct u as [| u | u | u | u | u | u | u | u | u | u]; intros H;
    try (now elim H);
    (eexists _, _; split; [reflexivity | split; [discriminate |]]);
    destruct u; exact I || reflexivity.
Qed.

Lemma print_shape (d : Z) :
  (0 < d)%Z ->
  exists c r, print_positive d = String c r
              /\ digit_of_char c <> None /\ second_ok r.
Proof.
  intros P. unfold print_positive.
  pose proof (significand_spec (digit_count d) d) as V.
  pose proof (significand_pos (digit_count d) d P) as Spos.
  set (s := significand (digit_count d) d) in *.
  set (tz := trailing_zeros (digit_count d) d) in *.
  destruct (digit_count s + tz <=? 21)%nat.
  - apply string_of_uint_shape. intros N.
    assert (E : Z.of_uint (Decimal.app (decimal_digits s)
                             (Nat.iter tz Decimal.D0 Decimal.Nil)) = d).
    { rewrite DecimalZ.of_uint_iter_D0, iter_mul10, of_uint_digits by lia.
      exact V. }
    rewrite N in E. cbn in E. lia.
  - pose proof (digits_not_nil s) as N.
    destruct (decimal_digits s) as [| u | u | u | u | u | u | u | u | u | u];
      try (now elim N);
      (eexists _, _; split; [reflexivity | split; [discriminate |]]);
      cbn [tail_digits]; destruct (is_nil u); reflexivity.
Qed.

Lemma string_to_number_unsigned (c : ascii) (r : string) :
  digit_of_char c <> None -> second_ok r ->
  string_to_number (String c r) = unsigned_literal false (String c r).
Proof.
  intros D S. unfold string_to_number.
  rewrite (skip_whitespace_digit c r D), (non_decimal_none c r S).
  destruct (digit_facts c D) as (_ & _ & _ & M & P & _).
  now rewrite M, P.
Qed.

Lemma string_to_number_negative (c : ascii) (r : string) :
  digit_of_char c <> None ->
  string_to_number (String "-" (String c r))
  = unsigned_literal true (String c r).
Proof.
  intros D. unfold string_to_number.
  assert (W : skip_whitespace (String "-" (String c r))
              = String "-" (String c r)).
  { destruct r as [| c3 r]; reflexivity. }
  rewrite W. destruct r as [| c3 r]; reflexivity.
Qed.

Lemma eqb_opp (a b : Z) : (- a =? - b)%Z = (a =? b)%Z.
Proof.
  destruct (Z.eqb_spec a b), (Z.eqb_spec (- a) (- b)); (reflexivity || lia).
Qed.

Lemma equals_integer_opp (M E n : Z) :
  equals_integer (double_of_decimal true M E) (- n)
  = equals_integer (double_of_decimal false M E) n.
Proof.
  unfold double_of_decimal, nearest_double.
  repeat match goal with
         | |- context [if ?b then _ else _] => destruct b
         end;
    cbn [equals_integer]; try reflexivity;
    rewrite ?Z.mul_opp_l, ?eqb_opp; try reflexivity.
  all: repeat match goal with
         | |- context [if ?b then _ else _] => destruct b
         end; rewrite ?Z.mul_opp_l, ?eqb_opp; reflexivity.
Qed.

Lemma equals_integer_functional (x : number) (n m : Z) :
  equals_integer x n = true -> equals_integer x m = true -> n = m.
Proof.
  destruct x as [| b | b v e]; try discriminate. cbn [equals_integer].
  destruct (Z.leb_spec 0 e); intros A B; apply Z.eqb_eq in A, B.
  - congruence.
  - assert (P : (0 < 2 ^ (- e))%Z) by (apply Z.pow_pos_nonneg; lia).
    apply Z.mul_reg_r with (2 ^ (- e))%Z; [lia | congruence].
Qed.

Lemma to_number_of_to_string (n : Z) :
  is_double n = true ->
  equals_integer (string_to_number (number_to_string n)) n = true.
Proof.
  intros D. destruct n as [| p | p].
  - reflexivity.
  - pose proof (shortest_accepted (Z.pos p) ltac:(lia) D) as A.
    unfold accepts in A. apply andb_true_iff in A. destruct A as [P A].
    apply Z.ltb_lt in P. cbn [number_to_string].
    destruct (print_shape _ P) as (c & r & E & Dc & S).
    rewrite E, (string_to_number_unsigned c r Dc S), <- E.
    now rewrite print_parse.
  - assert (D' : is_double (Z.pos p) = true).
    { change (equals_integer (double_of_decimal false (Z.pos p) 0) (Z.pos p)
              = true).
      rewrite <- equals_integer_opp. exact D. }
    pose proof (shortest_accepted (Z.pos p) ltac:(lia) D') as A.
    unfold accepts in A. apply andb_true_iff in A. destruct A as [P A].
    apply Z.ltb_lt in P. cbn [number_to_string Z.opp].
    destruct (print_shape _ P) as (c & r & E & Dc & S).
    cbn [append]. rewrite E, (string_to_number_negative c r Dc), <- E.
    rewrite print_parse by exact P.
    change (Z.neg p) with (- Z.pos p)%Z.
    now rewrite equals_integer_opp.
Qed.

(** The number 42 and the string of its digits are equal ids for [==], and
    they get the same name. *)
Lemma number_and_its_spelling :
  loosely_equal (id_number 42) (id_string "42") = true
  /\ js_plus "fooqapreview-" (id_number 42)
     = js_plus "fooqapreview-" (id_string "42").
Proof.
  split; reflexivity.
Qed.

(** C9.  The app name is the prefix followed by the id written as a string,
    and for a fixed prefix it is injective in the id: two ids, each a string
    or an integer number, that are different for JavaScript's [!=] get
    different names. *)
Theorem app_name_injective (prefix : string) (id1 id2 : pr_id) :
  is_js_id id1 = true ->
  is_js_id id2 = true ->
  loosely_equal id1 id2 = false ->
  js_plus prefix id1 = (prefix ++ id_to_string id1)%string
  /\ js_plus prefix id1 <> js_plus prefix id2.
Proof.
  intros V1 V2 D. split; [reflexivity |].
  intros E. apply js_plus_inj in E.
  destruct id1 as [n | s], id2 as [m | t]; cbn in V1, V2, D, E.
  - pose proof (to_number_of_to_string n V1) as A.
    pose proof (to_number_of_to_string m V2) as B.
    rewrite E in A.
    rewrite (equals_integer_functional _ _ _ A B), Z.eqb_refl in D.
    discriminate.
  - pose proof (to_number_of_to_string n V1) as A.
    rewrite E in A. congruence.
  - pose proof (to_number_of_to_string m V2) as A.
    rewrite <- E in A. congruence.
  - subst t. rewrite String.eqb_refl in D. discriminate.
Qed.

Lemma app_name_injective_witness :
  js_plus "fooqapreview-" (id_number 42)
    = ("fooqapreview-" ++ id_to_string (id_number 42))%string
  /\ js_plus "fooqapreview-" (id_number 42)
     <> js_plus "fooqapreview-" (id_string "43").
Proof.
  apply (app_name_injective "fooqapreview-" (id_number 42) (id_string "43"));
    reflexivity.
Defined.

(** ** The handler: events that need no provider *)

(** C8.  An OPEN pull request whose source branch the pattern does not match
    is answered with 200 and nothing else happens, whatever the
    destination. *)
Theorem open_untracked_branch_is_noop (config : Config) (world : World)
    (req : Request) (pr : PullRequest.t) :
  body_pullrequest req = Some pr ->
  PullRequest.state pr = "OPEN" ->
  branch_regex config (PullRequest.source_branch_name pr) = false ->
  webhook config world req = Ran [SendStatus 200]
  /\ response (events_of (webhook config world req)) = Some 200
  /\ calls (events_of (webhook config world req)) = [].
Proof.
  intros B S R.
  assert (E : webhook config world req = Ran [SendStatus 200]).
  { unfold webhook. rewrite B. simpl. now rewrite S, R. }
  rewrite E. repeat split.
Qed.

Lemma open_untracked_branch_is_noop_witness :
  webhook readme_config (healthy [] [])
    (event_for (pull_request 42 "OPEN" "feature-x" "main"))
  = Ran [SendStatus 200]
  /\ response (events_of (webhook readme_config (healthy [] [])
       (event_for (pull_request 42 "OPEN" "feature-x" "main")))) = Some 200
  /\ calls (events_of (webhook readme_config (healthy [] [])
       (event_for (pull_request 42 "OPEN" "feature-x" "main")))) = [].
Proof.
  apply (open_untracked_branch_is_noop readme_config (healthy [] [])
           (event_for (pull_request 42 "OPEN" "feature-x" "main"))
           (pull_request 42 "OPEN" "feature-x" "main"));
    reflexivity.
Defined.

(** ** The handler without a pull request *)

(** C4 is not what the handler does: the first statement of [webhook] reads
    [req.body.pullrequest.source], so with a null or absent [pullrequest]
    the handler throws before any of its guards, and no status is sent. *)
Theorem webhook_without_pullrequest_throws (config : Config) (world : World) :
  webhook config world {| body_pullrequest := None |} = Threw TypeError
  /\ response (events_of (webhook config world {| body_pullrequest := None |}))
     = None.
Proof.
  split; reflexivity.
Qed.

(** ** Running a chain by cases on what the providers answer *)

(** Case analysis on an innermost scrutinee: a provider's reply, the result
    of a search in the listing, a truthiness test. *)
Ltac chain_step :=
  match goal with
  | H : ?x = _ |- context [match ?x with _ => _ end] => rewrite H
  | |- context [match ?x with _ => _ end] =>
      lazymatch x with
      | context [match _ with _ => _ end] => fail
      | _ => destruct x eqn:?
      end
  end.

Ltac run_chain :=
  unfold request, and_then, catch, resolve, reject, emit, throw_in_callback;
  repeat (simpl; try chain_step); simpl.

(** ** [create_or_update_app] *)

(** The chain of [create_or_update_app] ends in a [catch] whose handler only
    logs: the promise it returns is always fulfilled, whatever the providers
    answered. *)
Lemma create_or_update_app_fulfills (config : Config) (world : World)
    (obj : Deployment) :
  snd (create_or_update_app config world obj) = Fulfilled tt.
Proof.
  unfold create_or_update_app, heroku_oauth, new_Heroku.
  run_chain; try reflexivity;
    repeat match goal with u : unit |- _ => destruct u end; reflexivity.
Qed.

(** It sends no status itself. *)
Lemma create_or_update_app_no_response (config : Config) (world : World)
    (obj : Deployment) :
  response (fst (create_or_update_app config world obj)) = None.
Proof.
  unfold create_or_update_app, heroku_oauth, new_Heroku.
  run_chain; reflexivity.
Qed.

Lemma response_app (t t' : list event) :
  response (t ++ t') =
  match response t with
  | Some code => Some code
  | None => response t'
  end.
Proof.
  induction t as [| [c | e | e | code] t IH]; simpl; auto.
Qed.

Lemma calls_app (t t' : list event) : calls (t ++ t') = calls t ++ calls t'.
Proof.
  induction t as [| [c | e | e | code] t IH]; simpl; auto.
  now rewrite IH.
Qed.

(** So the [catch] that would answer 500 after [create_or_update_app] can
    never run: on the path that deploys the pull request's own branch the
    answer is 200, whatever happened to the provider requests. *)
Lemma own_branch_deploy_answers_200 (config : Config) (world : World)
    (req : Request) (pr : PullRequest.t) :
  body_pullrequest req = Some pr ->
  PullRequest.state pr = "OPEN" ->
  branch_regex config (PullRequest.source_branch_name pr) = true ->
  response (events_of (webhook config world req)) = Some 200.
Proof.
  intros B S R. unfold webhook. rewrite B. simpl.
  unfold is_mergeable_on_qa_branch. rewrite S, R. simpl.
  pose proof (create_or_update_app_fulfills config world
    {| repo_full_name := PullRequest.source_repository_full_name pr;
       deployable_branch := PullRequest.source_branch_name pr;
       pullrequest_title := PullRequest.title pr;
       pullrequest_id := PullRequest.id pr;
       app_name := js_plus (domain_prefix config) (PullRequest.id pr) |}) as F.
  pose proof (create_or_update_app_no_response config world
    {| repo_full_name := PullRequest.source_repository_full_name pr;
       deployable_branch := PullRequest.source_branch_name pr;
       pullrequest_title := PullRequest.title pr;
       pullrequest_id := PullRequest.id pr;
       app_name := js_plus (domain_prefix config) (PullRequest.id pr) |}) as N.
  destruct (create_or_update_app _ _ _) as [t s]. simpl in F, N. subst s.
  simpl. rewrite response_app, N. reflexivity.
Qed.

(** C3 is not what the handler does.  With Heroku's app listing failing, an
    OPEN pull request from a tracked branch: the steps after the listing are
    skipped and nothing is rolled back, but the error is logged inside
    [create_or_update_app] and swallowed there, and the handler answers 200,
    not 500. *)
Theorem failed_listing_is_answered_200 :
  webhook readme_config (listing_down (healthy [] []))
    (event_for (pull_request 42 "OPEN" "qa-foo" "main"))
  = Ran [ Call heroku_post_authorizations;
          Call (heroku_get "/apps");
          ConsoleError RequestError;
          SendStatus 200 ].
Proof.
  reflexivity.
Qed.

(** ** The pull-request lookup *)

(** C10.  [oauth2] is not bound where the success continuation of
    [bitbucket_oauth] evaluates it (the client is bound to
    [bitbucket_oauth2]).  When the token endpoint answers, the continuation
    throws a ReferenceError inside the callback and the promise stays
    pending; when it fails, the promise is rejected.  So [bitbucket_oauth]
    is never fulfilled, and neither is [get_pull_request_id], for any
    repository and branch. *)
Theorem bitbucket_oauth_never_fulfills (world : World) :
  in_scope "oauth2" = false
  /\ bitbucket_oauth world =
     match getToken world with
     | success _ => ([Call bitbucket_getToken; Uncaught ReferenceError], Pending)
     | failure => ([Call bitbucket_getToken], Rejected RequestError)
     end
  /\ (forall token, snd (bitbucket_oauth world) <> Fulfilled token)
  /\ (forall repository branch result,
        snd (get_pull_request_id world repository branch) <> Fulfilled result).
Proof.
  assert (E : bitbucket_oauth world =
     match getToken world with
     | success _ => ([Call bitbucket_getToken; Uncaught ReferenceError], Pending)
     | failure => ([Call bitbucket_getToken], Rejected RequestError)
     end).
  { unfold bitbucket_oauth, request. now destruct (getToken world). }
  split; [reflexivity | split; [exact E | split]].
  - intros token. rewrite E. destruct (getToken world); discriminate.
  - intros repository branch result.
    unfold get_pull_request_id. rewrite E.
    destruct (getToken world); discriminate.
Qed.

(** The lookup issues the token request and nothing else. *)
Lemma get_pull_request_id_outcome (world : World) (repository branch : string) :
  get_pull_request_id world repository branch =
  match getToken world with
  | success _ => ([Call bitbucket_getToken; Uncaught ReferenceError], Pending)
  | failure => ([Call bitbucket_getToken], Rejected RequestError)
  end.
Proof.
  unfold get_pull_request_id, bitbucket_oauth, request.
  now destruct (getToken world).
Qed.

(** What the handler does with the result of the lookup, were there one:
    nothing when no pull request is found... *)
Lemma deploy_looked_up_nothing (config : Config) (world : World)
    (pr : PullRequest.t) (branch : string) :
  deploy_looked_up config world pr branch None = resolve tt.
Proof.
  reflexivity.
Qed.

(** ... and for a pull request found, a deployment of the given branch under
    the name made from the id found. *)
Lemma deploy_looked_up_found (config : Config) (world : World)
    (pr : PullRequest.t) (branch : string) (found : pr_id) :
  truthy_id (Some found) = true ->
  deploy_looked_up config world pr branch (Some found) =
  create_or_update_app config world
    {| repo_full_name := PullRequest.source_repository_full_name pr;
       deployable_branch := branch;
       pullrequest_title := PullRequest.title pr;
       pullrequest_id := found;
       app_name := js_plus (domain_prefix config) found |}.
Proof.
  intros T. unfold deploy_looked_up. now rewrite T.
Qed.

(** Every event that merges an untracked branch into a tracked one ends
    after the token request: with 500 when that request fails, with no
    answer at all when it succeeds. *)
Lemma merge_into_tracked_branch_events (config : Config) (world : World)
    (req : Request) (pr : PullRequest.t) :
  body_pullrequest req = Some pr ->
  PullRequest.state pr = "MERGED" ->
  is_mergeable_on_qa_branch config (PullRequest.source_branch_name pr)
    (PullRequest.destination_branch_name pr) = true ->
  webhook config world req =
  Ran (match getToken world with
       | success _ => [Call bitbucket_getToken; Uncaught ReferenceError]
       | failure => [Call bitbucket_getToken; SendStatus 500]
       end).
Proof.
  intros B S M. unfold webhook. rewrite B. simpl. rewrite S, M. simpl.
  rewrite andb_false_r. rewrite get_pull_request_id_outcome.
  now destruct (getToken world).
Qed.

(** C5 is not what the handler does.  A branch merged into [qa-main] while a
    pull request from [qa-main] is open with id 99: the lookup never
    returns, so the search is not sent, nothing is built and no status is
    sent.  The same happens when the search would find no pull request,
    where the claim expects 200. *)
Theorem merge_into_tracked_branch_stalls :
  webhook readme_config (healthy [] [Some (id_number 99)])
    (event_for (pull_request 5 "MERGED" "feature-x" "qa-main"))
  = Ran [Call bitbucket_getToken; Uncaught ReferenceError]
  /\ webhook readme_config (healthy [] [])
       (event_for (pull_request 5 "MERGED" "feature-x" "qa-main"))
     = Ran [Call bitbucket_getToken; Uncaught ReferenceError]
  /\ response [Call bitbucket_getToken; Uncaught ReferenceError] = None
  /\ count is_build [Call bitbucket_getToken; Uncaught ReferenceError] = 0.
Proof.
  repeat split.
Qed.

(** ** Updating an existing app *)

(** C6.  When the listing contains an app with the computed name, a run of
    [create_or_update_app] creates no app, patches no config vars, triggers
    exactly one build and posts no comment.  In any run, a comment is posted
    only after the app was created in that run: the listing did not contain
    the name, and the creation request was sent and succeeded. *)
Theorem existing_app_is_rebuilt_only (config : Config) (world : World)
    (obj : Deployment) :
  (forall token apps,
     post_authorizations world = success (Some token) ->
     get_apps world = success apps ->
     listed (app_name obj) apps = true ->
     count is_create (fst (create_or_update_app config world obj)) = 0
     /\ count is_config_patch (fst (create_or_update_app config world obj)) = 0
     /\ count is_build (fst (create_or_update_app config world obj)) = 1
     /\ count is_comment (fst (create_or_update_app config world obj)) = 0)
  /\ (count is_comment (fst (create_or_update_app config world obj)) <> 0 ->
      (exists app, post_apps world (app_name obj) = success app)
      /\ (exists apps, get_apps world = success apps
                       /\ listed (app_name obj) apps = false)
      /\ In (heroku_post_apps (app_name obj))
            (calls (fst (create_or_update_app config world obj)))).
Proof.
  split.
  - intros token apps A L F.
    destruct (find_listed _ _ F) as [found Ff].
    unfold create_or_update_app, heroku_oauth, new_Heroku.
    unfold request, and_then, catch, resolve, reject, emit.
    rewrite A, L; simpl. rewrite Ff; simpl.
    destruct (post_builds world _ _); simpl; repeat split.
  - unfold create_or_update_app, heroku_oauth, new_Heroku.
    run_chain; intros C; try (now elim C);
      (split; [eauto | split; [| simpl; auto 6]]);
      (eexists; split; [reflexivity |]);
      match goal with
      | H : find _ ?apps = None |- listed _ ?apps = false =>
          unfold listed; destruct (existsb _ apps) eqn:X; [| reflexivity];
          destruct (find_listed _ _ X) as [f Hf]; congruence
      end.
Qed.

Lemma existing_app_is_rebuilt_only_witness :
  count is_create (fst (create_or_update_app readme_config
    (healthy [app_of "fooqapreview-42"] [])
    (deployment_of readme_config (pull_request 42 "OPEN" "qa-foo" "main")))) = 0
  /\ count is_config_patch (fst (create_or_update_app readme_config
    (healthy [app_of "fooqapreview-42"] [])
    (deployment_of readme_config (pull_request 42 "OPEN" "qa-foo" "main")))) = 0
  /\ count is_build (fst (create_or_update_app readme_config
    (healthy [app_of "fooqapreview-42"] [])
    (deployment_of readme_config (pull_request 42 "OPEN" "qa-foo" "main")))) = 1
  /\ count is_comment (fst (create_or_update_app readme_config
    (healthy [app_of "fooqapreview-42"] [])
    (deployment_of readme_config (pull_request 42 "OPEN" "qa-foo" "main")))) = 0.
Proof.
  destruct (existing_app_is_rebuilt_only readme_config
              (healthy [app_of "fooqapreview-42"] [])
              (deployment_of readme_config
                 (pull_request 42 "OPEN" "qa-foo" "main"))) as [Hlisted _].
  apply (Hlisted "heroku-token" [app_of "fooqapreview-42"]); reflexivity.
Defined.

(** ** Closed pull requests *)

(** The events of the deletion branch, by cases on what Heroku answers. *)
Lemma delete_app_named_events (world : World) (name : string) :
  fst (delete_app_named world name) =
  Call heroku_post_authorizations ::
  match post_authorizations world with
  | success (Some _) =>
      Call (heroku_get "/apps") ::
      match get_apps world with
      | success apps =>
          if listed name apps then
            [ Call (heroku_delete ("/apps/" ++ name));
              SendStatus match delete_app world name with
                         | success _ => 200
                         | failure => 500
                         end ]
          else [SendStatus 200]
      | failure => [SendStatus 500]
      end
  | _ => [SendStatus 500]
  end.
Proof.
  unfold delete_app_named, heroku_oauth, new_Heroku.
  unfold request, and_then, catch, resolve, reject, emit, sendStatus.
  destruct (post_authorizations world) as [| [token |]]; try reflexivity.
  destruct (get_apps world) as [| apps]; try reflexivity.
  destruct (listed name apps) eqn:L.
  - destruct (find_listed _ _ L) as [found F]. cbn. rewrite F.
    now destruct (delete_app world name).
  - cbn. now rewrite (find_not_listed _ _ L).
Qed.

(** C7.  For a pull request that is not OPEN and does not pass the gate, the
    handler returns and, with [name] the prefix followed by the id of the
    event:
    - the only request that changes anything is the deletion of [name];
    - once authorized it lists the apps, and when the listing arrives it
      deletes [name] exactly when the listing contains it; the answer is
      200 when it is absent, and when present 200 if the deletion
      succeeded and 500 if it failed;
    - when the authorization or the listing fails, the answer is 500 and
      nothing is changed. *)
Theorem closed_pull_request_deletes_its_app (config : Config) (world : World)
    (req : Request) (pr : PullRequest.t) :
  body_pullrequest req = Some pr ->
  PullRequest.state pr <> "OPEN" ->
  is_creatable_or_updatable config (Some pr)
    (PullRequest.source_branch_name pr)
    (PullRequest.destination_branch_name pr) = false ->
  let name := js_plus (domain_prefix config) (PullRequest.id pr) in
  exists events,
    webhook config world req = Ran events
    /\ (forall c, In c (calls events) -> is_mutation c = true ->
          c = heroku_delete ("/apps/" ++ name))
    /\ (authorized world = true -> In (heroku_get "/apps") (calls events))
    /\ (forall apps,
          authorized world = true -> get_apps world = success apps ->
          (In (heroku_delete ("/apps/" ++ name)) (calls events)
           <-> listed name apps = true)
          /\ (listed name apps = false -> response events = Some 200)
          /\ (listed name apps = true ->
              response events =
              Some match delete_app world name with
                   | success _ => 200
                   | failure => 500
                   end))
    /\ (authorized world = false \/ get_apps world = failure ->
          response events = Some 500 /\ count is_mutation events = 0).
Proof.
  intros B S G name.
  apply String.eqb_neq in S.
  eexists. split.
  { unfold webhook. rewrite B. cbn zeta. rewrite G.
    cbn iota. rewrite S. cbn [negb]. cbn iota. reflexivity. }
  fold name. rewrite delete_app_named_events. unfold authorized, count.
  destruct (post_authorizations world) as [| [token |]].
  1, 3: cbn; repeat split; try discriminate;
        intros c [<- | []]; discriminate.
  destruct (get_apps world) as [| apps].
  { cbn; repeat split; try discriminate.
    - intros c [<- | [<- | []]]; discriminate.
    - auto. }
  destruct (listed name apps) eqn:L; cbn [calls response In];
    (split; [| split; [auto | split]]).
  - intros c [<- | [<- | [<- | []]]]; (discriminate || reflexivity).
  - intros apps' _ E; injection E as <-; rewrite L.
    repeat split; auto; discriminate.
  - intros [X | X]; discriminate.
  - intros c [<- | [<- | []]]; discriminate.
  - intros apps' _ E; injection E as <-; rewrite L.
    repeat split; try discriminate.
    intros [X | [X | []]]; discriminate.
  - intros [X | X]; discriminate.
Qed.

Lemma closed_pull_request_deletes_its_app_witness :
  exists events,
    webhook readme_config (healthy [app_of "fooqapreview-7"] [])
      (event_for (pull_request 7 "DECLINED" "qa-foo" "main")) = Ran events
    /\ In (heroku_delete "/apps/fooqapreview-7") (calls events)
    /\ response events = Some 200.
Proof.
  assert (N : PullRequest.state (pull_request 7 "DECLINED" "qa-foo" "main")
              <> "OPEN") by (simpl; discriminate).
  destruct (closed_pull_request_deletes_its_app readme_config
              (healthy [app_of "fooqapreview-7"] [])
              (event_for (pull_request 7 "DECLINED" "qa-foo" "main"))
              (pull_request 7 "DECLINED" "qa-foo" "main")
              eq_refl N eq_refl)
    as (events & E & _ & _ & H & _).
  destruct (H [app_of "fooqapreview-7"] eq_refl eq_refl) as (D & _ & R).
  exists events. split; [exact E | split].
  - apply D. reflexivity.
  - exact (R eq_refl).
Defined.

(** ** The status 400 *)

(** The last statement of the handler, [res.sendStatus(400)], is never
    reached: a request gets there only with a pull request that is null (and
    then the handler has already thrown) or OPEN (and then the gate has
    already taken it). *)
Lemma webhook_never_answers_400 (config : Config) (world : World)
    (req : Request) :
  response (events_of (webhook config world req)) <> Some 400.
Proof.
  destruct (body_pullrequest req) as [pr |] eqn:B.
  2: { unfold webhook. rewrite B. discriminate. }
  destruct (String.eqb_spec (PullRequest.state pr) "OPEN") as [S | S].
  - destruct (branch_regex config (PullRequest.source_branch_name pr)) eqn:R.
    + rewrite (own_branch_deploy_answers_200 _ _ _ _ B S R). discriminate.
    + unfold webhook. rewrite B. simpl. rewrite S, R. discriminate.
  - apply String.eqb_neq in S.
    destruct (is_creatable_or_updatable config (Some pr)
                (PullRequest.source_branch_name pr)
                (PullRequest.destination_branch_name pr)) eqn:G.
    + simpl in G. rewrite S in G. simpl in G.
      apply andb_true_iff in G. destruct G as [M Q].
      apply String.eqb_eq in M.
      rewrite (merge_into_tracked_branch_events _ _ _ _ B M Q).
      destruct (getToken world); discriminate.
    + unfold webhook. rewrite B. cbn zeta. rewrite G. cbn iota. rewrite S.
      cbn [negb]. cbn iota. unfold events_of.
      rewrite delete_app_named_events.
      destruct (post_authorizations world) as [| [token |]];
        try discriminate.
      destruct (get_apps world) as [| apps]; try discriminate.
      destruct (listed _ apps); try discriminate.
      destruct (delete_app world _); discriminate.
Qed.

(** * Further properties of the module *)

(** ** [create_or_update_app]: settlement, order of the requests *)

Ltac unfold_deploy :=
  unfold create_or_update_app, heroku_oauth, new_Heroku.

(** The promise of [create_or_update_app] is fulfilled whatever the
    providers answer; its events are provider requests, followed by at most
    one [console.error], which then is the last event; it sends no status. *)
Theorem create_or_update_app_logs_and_fulfills (config : Config)
    (world : World) (obj : Deployment) :
  snd (create_or_update_app config world obj) = Fulfilled tt
  /\ response (fst (create_or_update_app config world obj)) = None
  /\ exists log,
       fst (create_or_update_app config world obj)
       = map Call (calls (fst (create_or_update_app config world obj))) ++ log
       /\ (log = [] \/ exists e, log = [ConsoleError e]).
Proof.
  split; [apply create_or_update_app_fulfills |].
  split; [apply create_or_update_app_no_response |].
  unfold_deploy. run_chain;
    (eexists; split; [reflexivity | (now left) || (right; eauto)]).
Qed.

(** The requests of a run are issued in one fixed order, each at most once:
    they are an initial part either of authorization, listing, build, or of
    authorization, listing, creation, config vars, build, comment.  So no
    config vars are set before the app is created, nothing is built before
    the config vars are set on a new app, and no comment is posted before
    the build was accepted. *)
Theorem create_or_update_app_request_order (config : Config) (world : World)
    (obj : Deployment) :
  exists rest,
    calls (fst (create_or_update_app config world obj)) ++ rest
    = update_calls config obj
    \/ exists url,
         calls (fst (create_or_update_app config world obj)) ++ rest
         = create_calls config obj ++ [comment_call config obj url].
Proof.
  unfold update_calls, create_calls, comment_call. unfold_deploy.
  run_chain; eexists;
    first [ left; reflexivity
          | right; exists EmptyString; reflexivity
          | right; eexists; reflexivity ].
Qed.

(** A new app, every request accepted: the run creates the app under the
    computed name, sets the configured variables on it, builds the tarball
    of the deployable branch, and then posts the comment with the app's
    URL; the comment is left out when the created app has no URL. *)
Theorem new_app_run (config : Config) (world : World) (obj : Deployment)
    (apps : list App.t) (app : App.t) :
  authorized world = true ->
  get_apps world = success apps ->
  listed (app_name obj) apps = false ->
  post_apps world (app_name obj) = success app ->
  patch_config_vars world (app_name obj) = success tt ->
  post_builds world (app_name obj) (tarball_url config obj) = success tt ->
  calls (fst (create_or_update_app config world obj))
  = create_calls config obj
    ++ (if truthy_string (App.web_url app)
        then [comment_call config obj (App.web_url app)]
        else []).
Proof.
  unfold authorized. intros A L N C P B.
  unfold create_calls, comment_call. unfold_deploy.
  unfold request, and_then, catch, resolve, reject, emit.
  destruct (post_authorizations world) as [| [token |]]; try discriminate.
  rewrite L. cbn -[tarball_url comment_url comment_content].
  rewrite (find_not_listed _ _ N), C, P, B.
  cbn -[tarball_url comment_url comment_content].
  destruct (truthy_string (App.web_url app)); [| reflexivity].
  now destruct (post_comment world _ _).
Qed.

Lemma new_app_run_witness :
  calls (fst (create_or_update_app readme_config (healthy [] [])
    (deployment_of readme_config (pull_request 42 "OPEN" "qa-foo" "main"))))
  = create_calls readme_config
      (deployment_of readme_config (pull_request 42 "OPEN" "qa-foo" "main"))
    ++ [comment_call readme_config
          (deployment_of readme_config (pull_request 42 "OPEN" "qa-foo" "main"))
          "https://fooqapreview-42.herokuapp.com/"].
Proof.
  apply (new_app_run readme_config (healthy [] [])
           (deployment_of readme_config (pull_request 42 "OPEN" "qa-foo" "main"))
           [] (app_of "fooqapreview-42"));
    reflexivity.
Defined.

(** ** The handler, path by path *)

Lemma count_app (p : call -> bool) (t t' : list event) :
  count p (t ++ t') = count p t + count p t'.
Proof.
  unfold count. now rewrite calls_app, filter_app, length_app.
Qed.

Lemma create_or_update_app_never_deletes (config : Config) (world : World)
    (obj : Deployment) :
  count is_delete (fst (create_or_update_app config world obj)) = 0.
Proof.
  unfold_deploy. run_chain; reflexivity.
Qed.

(** The four paths of the handler for a pull request that is not null. *)
Lemma webhook_paths (config : Config) (world : World) (req : Request)
    (pr : PullRequest.t) :
  body_pullrequest req = Some pr ->
  webhook config world req =
  Ran
    (if (PullRequest.state pr =? "OPEN")%string then
       if branch_regex config (PullRequest.source_branch_name pr)
       then fst (create_or_update_app config world (deployment_of config pr))
            ++ [SendStatus 200]
       else [SendStatus 200]
     else if (PullRequest.state pr =? "MERGED")%string
             && is_mergeable_on_qa_branch config
                  (PullRequest.source_branch_name pr)
                  (PullRequest.destination_branch_name pr)
     then match getToken world with
          | success _ => [Call bitbucket_getToken; Uncaught ReferenceError]
          | failure => [Call bitbucket_getToken; SendStatus 500]
          end
     else fst (delete_app_named world
                 (js_plus (domain_prefix config) (PullRequest.id pr)))).
Proof.
  intros B.
  destruct (PullRequest.state pr =? "OPEN")%string eqn:S.
  - apply String.eqb_eq in S.
    destruct (branch_regex config (PullRequest.source_branch_name pr)) eqn:R.
    + unfold webhook. rewrite B. simpl.
      unfold is_mergeable_on_qa_branch. rewrite S, R. simpl.
      fold (deployment_of config pr).
      pose proof (create_or_update_app_fulfills config world
                    (deployment_of config pr)) as F.
      destruct (create_or_update_app _ _ _) as [t s]. simpl in F. subst s.
      reflexivity.
    + unfold webhook. rewrite B. simpl. now rewrite S, R.
  - destruct ((PullRequest.state pr =? "MERGED")%string
              && is_mergeable_on_qa_branch config
                   (PullRequest.source_branch_name pr)
                   (PullRequest.destination_branch_name pr)) eqn:G.
    + apply andb_true_iff in G. destruct G as [M Q].
      apply String.eqb_eq in M.
      apply (merge_into_tracked_branch_events _ _ _ _ B M Q).
    + unfold webhook. rewrite B. cbn zeta.
      unfold is_creatable_or_updatable. rewrite S, G. cbn. reflexivity.
Qed.

(** An OPEN pull request from a branch the pattern matches is deployed from
    its own source branch under the prefix followed by its own id, whatever
    its destination branch; the status is sent after the last event of the
    deployment and is 200 whatever the providers answered; nothing is
    deleted. *)
Theorem open_tracked_branch_deploys_own_branch (config : Config)
    (world : World) (req : Request) (pr : PullRequest.t) :
  body_pullrequest req = Some pr ->
  PullRequest.state pr = "OPEN" ->
  branch_regex config (PullRequest.source_branch_name pr) = true ->
  webhook config world req =
  Ran (fst (create_or_update_app config world
              {| repo_full_name := PullRequest.source_repository_full_name pr;
                 deployable_branch := PullRequest.source_branch_name pr;
                 pullrequest_title := PullRequest.title pr;
                 pullrequest_id := PullRequest.id pr;
                 app_name := js_plus (domain_prefix config)
                                     (PullRequest.id pr) |})
       ++ [SendStatus 200])
  /\ response (events_of (webhook config world req)) = Some 200
  /\ count is_delete (events_of (webhook config world req)) = 0.
Proof.
  intros B S R. rewrite (webhook_paths _ _ _ _ B), S, R.
  rewrite String.eqb_refl. fold (deployment_of config pr).
  split; [reflexivity |]. unfold events_of. split.
  - now rewrite response_app, create_or_update_app_no_response.
  - now rewrite count_app, create_or_update_app_never_deletes.
Qed.

Lemma open_tracked_branch_deploys_own_branch_witness :
  response (events_of (webhook readme_config
     (listing_down (healthy [] []))
     (event_for (pull_request 42 "OPEN" "qa-foo" "qa-main")))) = Some 200
  /\ count is_delete (events_of (webhook readme_config
       (listing_down (healthy [] []))
       (event_for (pull_request 42 "OPEN" "qa-foo" "qa-main")))) = 0.
Proof.
  apply (open_tracked_branch_deploys_own_branch readme_config
           (listing_down (healthy [] []))
           (event_for (pull_request 42 "OPEN" "qa-foo" "qa-main"))
           (pull_request 42 "OPEN" "qa-foo" "qa-main"));
    reflexivity.
Defined.

(** The status of a delivery, by cases: one status sent last, or none. *)
Lemma webhook_status_cases (config : Config) (world : World)
    (req : Request) :
  (exists before code,
      events_of (webhook config world req) = before ++ [SendStatus code]
      /\ response before = None
      /\ (code = 200 \/ code = 500))
  \/ (response (events_of (webhook config world req)) = None
      /\ (body_pullrequest req = None
          \/ exists pr token,
               body_pullrequest req = Some pr
               /\ PullRequest.state pr = "MERGED"
               /\ is_mergeable_on_qa_branch config
                    (PullRequest.source_branch_name pr)
                    (PullRequest.destination_branch_name pr) = true
               /\ getToken world = success token)).
Proof.
  destruct (body_pullrequest req) as [pr |] eqn:B.
  2: { right. unfold webhook. rewrite B. split; [reflexivity | now left]. }
  rewrite (webhook_paths _ _ _ _ B). unfold events_of.
  destruct (PullRequest.state pr =? "OPEN")%string.
  { left. destruct (branch_regex config _).
    - exists (fst (create_or_update_app config world (deployment_of config pr))),
             200.
      split; [reflexivity | split; [| now left]].
      apply create_or_update_app_no_response.
    - exists [], 200. repeat split. now left. }
  destruct ((PullRequest.state pr =? "MERGED")%string
            && is_mergeable_on_qa_branch config _ _) eqn:G.
  { apply andb_true_iff in G. destruct G as [M Q]. apply String.eqb_eq in M.
    destruct (getToken world) as [| token] eqn:T.
    - left. exists [Call bitbucket_getToken], 500. repeat split. now right.
    - right. split; [reflexivity |]. right. exists pr, token. auto. }
  left. rewrite delete_app_named_events.
  destruct (post_authorizations world) as [| [token |]].
  1, 3: exists [Call heroku_post_authorizations], 500; repeat split; now right.
  destruct (get_apps world) as [| apps].
  { exists [Call heroku_post_authorizations; Call (heroku_get "/apps")], 500.
    repeat split. now right. }
  destruct (listed _ apps).
  - eexists [Call heroku_post_authorizations; Call (heroku_get "/apps");
             Call (heroku_delete _)], _.
    split; [reflexivity | split; [reflexivity |]].
    destruct (delete_app world _); auto.
  - exists [Call heroku_post_authorizations; Call (heroku_get "/apps")], 200.
    repeat split. now left.
Qed.

(** Whatever the body of the request, with or without the objects the
    handler reads through, the handler never sends two statuses, and never
    one other than 200 or 500: a status that is sent is the last event of
    the delivery.  No status is sent if and only if the handler throws at
    its start (the pull request is null, or one of [source],
    [source.repository], [source.branch], [destination],
    [destination.branch] is missing), or the pull request is MERGED from
    an untracked into a tracked branch and the token endpoint answered (the
    lookup then never returns). *)
Theorem webhook_sends_at_most_one_status (config : Config) (world : World)
    (body : Payload.body) :
  (response (events_of (webhook_on_body config world body)) = None
   <-> (Payload.body_pullrequest body = None
        \/ (exists p,
               Payload.body_pullrequest body = Some p
               /\ (Payload.pr_source p = None
                   \/ (exists source,
                          Payload.pr_source p = Some source
                          /\ (Payload.source_repository source = None
                              \/ Payload.source_branch source = None))
                   \/ Payload.pr_destination p = None
                   \/ (exists destination,
                          Payload.pr_destination p = Some destination
                          /\ Payload.destination_branch destination = None)))
        \/ exists p pr token,
             Payload.body_pullrequest body = Some p
             /\ read_pullrequest p = Some pr
             /\ PullRequest.state pr = "MERGED"
             /\ is_mergeable_on_qa_branch config
                  (PullRequest.source_branch_name pr)
                  (PullRequest.destination_branch_name pr) = true
             /\ getToken world = success token))
  /\ (forall code,
        response (events_of (webhook_on_body config world body)) = Some code ->
        (code = 200 \/ code = 500)
        /\ exists before,
             events_of (webhook_on_body config world body)
             = before ++ [SendStatus code]
             /\ response before = None).
Proof.
  unfold webhook_on_body.
  destruct (Payload.body_pullrequest body) as [p |].
  2: { split; [split; [now left | reflexivity] | discriminate]. }
  destruct (read_pullrequest p) as [pr |] eqn:R.
  2: { split; [split; [intros _ | reflexivity] | discriminate].
       right; left. exists p. split; [reflexivity |].
       unfold read_pullrequest in R.
       destruct (Payload.pr_source p) as [source |]; [| now left].
       destruct (Payload.source_repository source) eqn:Rp;
         [| right; left; exists source; auto].
       destruct (Payload.source_branch source) eqn:Br;
         [| right; left; exists source; auto].
       destruct (Payload.pr_destination p) as [destination |];
         [| right; right; now left].
       destruct (Payload.destination_branch destination) eqn:Db;
         [discriminate |].
       right; right; right. exists destination. auto. }
  assert (Complete : forall q, Some p = Some q ->
            ~ (Payload.pr_source q = None
               \/ (exists source,
                      Payload.pr_source q = Some source
                      /\ (Payload.source_repository source = None
                          \/ Payload.source_branch source = None))
               \/ Payload.pr_destination q = None
               \/ (exists destination,
                      Payload.pr_destination q = Some destination
                      /\ Payload.destination_branch destination = None))).
  { intros q Q. injection Q as <-. unfold read_pullrequest in R.
    intros [A | [(source & A & [B | B]) | [A | (destination & A & B)]]];
      rewrite ?A in R; try discriminate.
    - rewrite B in R. discriminate.
    - rewrite B in R. destruct (Payload.source_repository source);
        discriminate.
    - destruct (Payload.pr_source p) as [source |]; [| discriminate].
      destruct (Payload.source_repository source); [| discriminate].
      destruct (Payload.source_branch source); discriminate.
    - destruct (Payload.pr_source p) as [source |]; [| discriminate].
      destruct (Payload.source_repository source); [| discriminate].
      destruct (Payload.source_branch source); [| discriminate].
      rewrite B in R. discriminate. }
  split; [split |].
  - intros N.
    destruct (webhook_status_cases config world {| body_pullrequest := Some pr |})
      as [(before & code & E & B & _) | [_ C]].
    + rewrite E, response_app, B in N. discriminate.
    + destruct C as [C | (pr' & token & B & M & Q & T)]; [discriminate |].
      cbn in B. injection B as <-.
      right; right. exists p, pr, token. auto.
  - intros [B | [(q & Q & C) | (q & pr' & token & Q & R' & M & G & T)]].
    + discriminate.
    + elim (Complete q Q C).
    + injection Q as <-. rewrite R in R'. injection R' as <-.
      rewrite (merge_into_tracked_branch_events config world
                 {| body_pullrequest := Some pr |} pr eq_refl M G), T.
      reflexivity.
  - intros code S.
    destruct (webhook_status_cases config world {| body_pullrequest := Some pr |})
      as [(before & code' & E & B & C) | [N _]]; [| congruence].
    rewrite E, response_app, B in S. cbn in S. injection S as <-.
    split; [exact C |]. now exists before.
Qed.


(** One delivery never both deploys and deletes: if it sends a deletion, it
    sends no creation, no config vars, no build and no comment. *)
Theorem webhook_never_deploys_and_deletes (config : Config) (world : World)
    (req : Request) :
  count is_delete (events_of (webhook config world req)) = 0
  \/ (count is_create (events_of (webhook config world req)) = 0
      /\ count is_config_patch (events_of (webhook config world req)) = 0
      /\ count is_build (events_of (webhook config world req)) = 0
      /\ count is_comment (events_of (webhook config world req)) = 0).
Proof.
  destruct (body_pullrequest req) as [pr |] eqn:B.
  2: { left. unfold webhook. now rewrite B. }
  rewrite (webhook_paths _ _ _ _ B). unfold events_of.
  destruct (PullRequest.state pr =? "OPEN")%string.
  { left. destruct (branch_regex config _); [| reflexivity].
    now rewrite count_app, create_or_update_app_never_deletes. }
  destruct ((PullRequest.state pr =? "MERGED")%string
            && is_mergeable_on_qa_branch config _ _).
  { left. now destruct (getToken world). }
  right. rewrite delete_app_named_events.
  destruct (post_authorizations world) as [| [token |]]; auto.
  destruct (get_apps world) as [| apps]; auto.
  destruct (listed _ apps); auto.
Qed.

(** Without a token from Heroku's authorization (the request failed, or the
    body it returned carries no [access_token]) a delivery changes nothing
    at any provider: the only requests it can send are that authorization
    and Bitbucket's token request. *)
Theorem unauthorized_delivery_changes_nothing (config : Config)
    (world : World) (req : Request) :
  authorized world = false ->
  count is_mutation (events_of (webhook config world req)) = 0
  /\ forall c, In c (calls (events_of (webhook config world req))) ->
               c = heroku_post_authorizations \/ c = bitbucket_getToken.
Proof.
  unfold authorized. intros A.
  destruct (body_pullrequest req) as [pr |] eqn:B.
  2: { unfold webhook. rewrite B. split; [reflexivity | intros c []]. }
  rewrite (webhook_paths _ _ _ _ B). unfold events_of.
  destruct (PullRequest.state pr =? "OPEN")%string.
  { destruct (branch_regex config _).
    - unfold_deploy. unfold request, and_then, catch, resolve, reject, emit.
      destruct (post_authorizations world) as [| [token |]];
        try discriminate; cbn; (split; [reflexivity |]);
        intros c [<- | []]; now left.
    - split; [reflexivity | intros c []]. }
  destruct ((PullRequest.state pr =? "MERGED")%string
            && is_mergeable_on_qa_branch config _ _).
  { destruct (getToken world); (split; [reflexivity |]);
      intros c [<- | []]; now right. }
  rewrite delete_app_named_events.
  destruct (post_authorizations world) as [| [token |]];
    try discriminate; (split; [reflexivity |]);
    intros c [<- | []]; now left.
Qed.

Lemma unauthorized_delivery_changes_nothing_witness :
  count is_mutation (events_of (webhook readme_config
    {| getToken := success "bb-token";
       get_pullrequests := fun _ _ => success (json_values []);
       post_comment := fun _ _ => success tt;
       post_authorizations := success None;
       get_apps := success [app_of "fooqapreview-7"];
       post_apps := fun n => success (app_of n);
       patch_config_vars := fun _ => success tt;
       post_builds := fun _ _ => success tt;
       delete_app := fun _ => success tt |}
    (event_for (pull_request 7 "DECLINED" "qa-foo" "main")))) = 0.
Proof.
  apply (unauthorized_delivery_changes_nothing readme_config).
  reflexivity.
Defined.

(** ** Successive deliveries against a Heroku account that accepts them *)

Lemma healthy_new_app (config : Config) (apps : list App.t)
    (found : list (option pr_id)) (obj : Deployment) :
  listed (app_name obj) apps = false ->
  fst (create_or_update_app config (healthy apps found) obj)
  = map Call (create_calls config obj
              ++ [comment_call config obj
                    (App.web_url (app_of (app_name obj)))]).
Proof.
  intros N. unfold create_calls, comment_call. unfold_deploy.
  unfold request, and_then, catch, resolve, reject, emit.
  cbn -[tarball_url comment_url comment_content].
  rewrite (find_not_listed _ _ N). reflexivity.
Qed.

Lemma healthy_existing_app (config : Config) (apps : list App.t)
    (found : list (option pr_id)) (obj : Deployment) :
  listed (app_name obj) apps = true ->
  fst (create_or_update_app config (healthy apps found) obj)
  = map Call (update_calls config obj).
Proof.
  intros L. destruct (find_listed _ _ L) as [a F].
  unfold update_calls. unfold_deploy.
  unfold request, and_then, catch, resolve, reject, emit.
  cbn -[tarball_url comment_url comment_content].
  rewrite F. reflexivity.
Qed.

Lemma listed_after_creation (n : string) (apps : list App.t) :
  listed n (apps ++ [app_of n]) = true.
Proof.
  unfold listed. rewrite existsb_app. simpl.
  rewrite String.eqb_refl. apply orb_true_iff. right. reflexivity.
Qed.

Lemma filter_out_created (n : string) (apps : list App.t) :
  listed n apps = false ->
  filter (fun app => negb (App.name app =? n)%string) (apps ++ [app_of n])
  = apps.
Proof.
  unfold listed. induction apps as [| a apps IH]; simpl; intros N.
  - now rewrite String.eqb_refl.
  - apply orb_false_iff in N. destruct N as [Na N].
    rewrite Na. simpl. now rewrite IH.
Qed.

Lemma strip_apps_path (n : string) :
  strip_prefix "/apps/" ("/apps/" ++ n) = Some n.
Proof.
  reflexivity.
Qed.

(** The same OPEN event delivered twice, for a pull request that has no app
    yet, to a Heroku account that accepts every request and lists what was
    created: the first delivery creates the app, the second finds it and
    only rebuilds.  In all there is one creation, one comment and two
    builds, both deliveries are answered 200, and the account ends with
    exactly one more app. *)
Theorem redelivery_rebuilds_without_creating (config : Config)
    (pr : PullRequest.t) (apps : list App.t) (found : list (option pr_id)) :
  PullRequest.state pr = "OPEN" ->
  branch_regex config (PullRequest.source_branch_name pr) = true ->
  listed (js_plus (domain_prefix config) (PullRequest.id pr)) apps = false ->
  let first :=
    events_of (webhook config (healthy apps found) (event_for pr)) in
  let second :=
    events_of (webhook config (healthy (heroku_after apps first) found)
                 (event_for pr)) in
  count is_create (first ++ second) = 1
  /\ count is_comment (first ++ second) = 1
  /\ count is_build (first ++ second) = 2
  /\ response first = Some 200
  /\ response second = Some 200
  /\ heroku_after (heroku_after apps first) second
     = apps ++ [app_of (js_plus (domain_prefix config) (PullRequest.id pr))].
Proof.
  intros S R N first second.
  assert (E1 : first
    = map Call (create_calls config (deployment_of config pr)
                ++ [comment_call config (deployment_of config pr)
                      (App.web_url (app_of (app_name (deployment_of config pr))))])
      ++ [SendStatus 200]).
  { unfold first. rewrite (webhook_paths _ _ (event_for pr) pr eq_refl), S, R.
    rewrite String.eqb_refl. unfold events_of.
    now rewrite (healthy_new_app _ _ _ (deployment_of config pr) N). }
  assert (A1 : heroku_after apps first
    = apps ++ [app_of (js_plus (domain_prefix config) (PullRequest.id pr))]).
  { rewrite E1. reflexivity. }
  assert (E2 : second
    = map Call (update_calls config (deployment_of config pr))
      ++ [SendStatus 200]).
  { unfold second. rewrite (webhook_paths _ _ (event_for pr) pr eq_refl), S, R.
    rewrite String.eqb_refl. unfold events_of. rewrite A1.
    now rewrite (healthy_existing_app _ _ _ (deployment_of config pr)
                   (listed_after_creation _ _)). }
  rewrite A1, E2, E1. repeat split.
Qed.

Lemma redelivery_rebuilds_without_creating_witness :
  count is_create
    (events_of (webhook readme_config (healthy [] [])
       (event_for (pull_request 42 "OPEN" "qa-foo" "main")))
     ++ events_of (webhook readme_config
          (healthy (heroku_after []
             (events_of (webhook readme_config (healthy [] [])
                (event_for (pull_request 42 "OPEN" "qa-foo" "main"))))) [])
          (event_for (pull_request 42 "OPEN" "qa-foo" "main")))) = 1.
Proof.
  apply (redelivery_rebuilds_without_creating readme_config
           (pull_request 42 "OPEN" "qa-foo" "main") [] []);
    reflexivity.
Defined.

(** An OPEN event followed by an event for the same pull request in any
    other state (declined, merged, ...), the source branch being tracked and
    the account accepting every request: the second delivery sends one
    deletion, is answered 200, and the account's apps are what they were
    before the first delivery. *)
Theorem deploy_then_close_restores_the_apps (config : Config)
    (pr : PullRequest.t) (apps : list App.t) (found : list (option pr_id))
    (closed : string) :
  PullRequest.state pr = "OPEN" ->
  closed <> "OPEN" ->
  branch_regex config (PullRequest.source_branch_name pr) = true ->
  listed (js_plus (domain_prefix config) (PullRequest.id pr)) apps = false ->
  let first :=
    events_of (webhook config (healthy apps found) (event_for pr)) in
  let second :=
    events_of (webhook config (healthy (heroku_after apps first) found)
                 (event_for (in_state closed pr))) in
  count is_delete second = 1
  /\ response second = Some 200
  /\ heroku_after (heroku_after apps first) second = apps.
Proof.
  intros S C R N first second.
  assert (A1 : heroku_after apps first
    = apps ++ [app_of (js_plus (domain_prefix config) (PullRequest.id pr))]).
  { unfold first. rewrite (webhook_paths _ _ (event_for pr) pr eq_refl), S, R.
    rewrite String.eqb_refl. unfold events_of.
    now rewrite (healthy_new_app _ _ _ (deployment_of config pr) N). }
  apply String.eqb_neq in C.
  assert (E2 : second
    = [ Call heroku_post_authorizations; Call (heroku_get "/apps");
        Call (heroku_delete
                ("/apps/" ++ js_plus (domain_prefix config) (PullRequest.id pr)));
        SendStatus 200 ]).
  { unfold second.
    rewrite (webhook_paths _ _ (event_for (in_state closed pr))
               (in_state closed pr) eq_refl).
    unfold is_mergeable_on_qa_branch. cbn [in_state PullRequest.state
      PullRequest.source_branch_name PullRequest.destination_branch_name
      PullRequest.id].
    rewrite C, R. cbn [negb andb]. rewrite andb_false_r.
    unfold events_of. rewrite delete_app_named_events, A1.
    cbn [healthy post_authorizations get_apps delete_app].
    now rewrite listed_after_creation. }
  rewrite A1, E2. repeat split.
  cbn [heroku_after]. rewrite strip_apps_path.
  now apply filter_out_created.
Qed.

Lemma deploy_then_close_restores_the_apps_witness :
  heroku_after
    (heroku_after [app_of "other"]
       (events_of (webhook readme_config (healthy [app_of "other"] [])
          (event_for (pull_request 42 "OPEN" "qa-foo" "main")))))
    (events_of (webhook readme_config
       (healthy (heroku_after [app_of "other"]
          (events_of (webhook readme_config (healthy [app_of "other"] [])
             (event_for (pull_request 42 "OPEN" "qa-foo" "main"))))) [])
       (event_for (in_state "DECLINED" (pull_request 42 "OPEN" "qa-foo" "main")))))
  = [app_of "other"].
Proof.
  apply (deploy_then_close_restores_the_apps readme_config
           (pull_request 42 "OPEN" "qa-foo" "main") [app_of "other"] []
           "DECLINED");
    solve [reflexivity | discriminate].
Defined.

(** ** The URLs that carry the credentials *)

Lemma hex_digits_unreserved (a : ascii) :
  uri_unreserved (hex_digit (N_of_ascii a / 16)) = true
  /\ uri_unreserved (hex_digit (N_of_ascii a mod 16)) = true.
Proof.
  destruct a as [[] [] [] [] [] [] [] []]; vm_compute; split; reflexivity.
Qed.

Lemma eqb_unreserved_reserved (a c : ascii) :
  uri_unreserved a = true -> uri_unreserved c = false -> Ascii.eqb a c = false.
Proof.
  intros Ha Hc. apply Ascii.eqb_neq. intros ->. congruence.
Qed.

(** A percent-encoded string is made of unreserved characters and percent
    signs. *)
Lemma encodeURIComponent_occurrences (c : ascii) (s : string) :
  uri_unreserved c = false -> c <> "%"%char ->
  occurrences c (encodeURIComponent s) = 0.
Proof.
  intros U P. induction s as [| a s IH]; [reflexivity |].
  cbn [encodeURIComponent].
  destruct (uri_unreserved a) eqn:Ua; cbv zeta; cbn [occurrences].
  - now rewrite (eqb_unreserved_reserved a c Ua U), IH.
  - destruct (hex_digits_unreserved a) as [H1 H2].
    rewrite (eqb_unreserved_reserved _ c H1 U).
    rewrite (eqb_unreserved_reserved _ c H2 U).
    assert (E : Ascii.eqb "%" c = false).
    { apply Ascii.eqb_neq. congruence. }
    now rewrite E, IH.
Qed.

Lemma occurrences_append (c : ascii) (s t : string) :
  occurrences c (s ++ t) = occurrences c s + occurrences c t.
Proof.
  induction s as [| a s IH]; simpl; [reflexivity |].
  rewrite IH. apply Nat.add_assoc.
Qed.

Lemma split_at_first_append (c : ascii) (s t : string) :
  occurrences c s = 0 ->
  split_at_first c (s ++ String c t) = Some (s, t).
Proof.
  induction s as [| a s IH]; simpl; intros H.
  - now rewrite Ascii.eqb_refl.
  - destruct (Ascii.eqb a c); [discriminate |].
    now rewrite (IH H).
Qed.

Lemma string_append_assoc (s t u : string) :
  (s ++ (t ++ u))%string = ((s ++ t) ++ u)%string.
Proof.
  induction s as [| a s IH]; simpl; [reflexivity | now rewrite IH].
Qed.

(** Whatever the configured user name and password contain, they stay in
    the user-information part of the two URLs built from them: the first
    at-sign of the tarball URL is the one before [bitbucket.org], that of
    the comment URL the one before [api.bitbucket.org], and the encoded
    credentials contain one colon (the separator) and no slash, question
    mark or hash. *)
Theorem credentials_stay_before_the_host (config : Config) (obj : Deployment) :
  split_at_first "@" (tarball_url config obj)
  = Some (("https://" ++ credentials config)%string,
          ("bitbucket.org/" ++ repo_full_name obj ++ "/get/"
           ++ deployable_branch obj ++ ".tar.gz")%string)
  /\ split_at_first "@" (comment_url config obj)
     = Some (("https://" ++ credentials config)%string,
             ("api.bitbucket.org/1.0/repositories/" ++ repo_full_name obj
              ++ "/pullrequests/" ++ id_to_string (pullrequest_id obj)
              ++ "/comments")%string)
  /\ occurrences ":" (credentials config) = 1
  /\ occurrences "/" (credentials config) = 0
  /\ occurrences "?" (credentials config) = 0
  /\ occurrences "#" (credentials config) = 0.
Proof.
  assert (O : forall c, uri_unreserved c = false -> c <> "%"%char ->
                        c <> ":"%char ->
                        occurrences c (credentials config) = 0).
  { intros c U P Q. unfold credentials.
    assert (E : Ascii.eqb ":" c = false).
    { apply Ascii.eqb_neq. congruence. }
    rewrite !occurrences_append, !encodeURIComponent_occurrences by assumption.
    cbn [occurrences]. now rewrite E. }
  assert (A : occurrences "@" ("https://" ++ credentials config) = 0).
  { rewrite occurrences_append, O; [reflexivity | reflexivity | |];
      discriminate. }
  repeat split.
  - unfold tarball_url. rewrite string_append_assoc.
    now apply split_at_first_append.
  - unfold comment_url. rewrite string_append_assoc.
    now apply split_at_first_append.
  - unfold credentials.
    rewrite !occurrences_append, !encodeURIComponent_occurrences;
      (reflexivity || discriminate).
  - apply O; (reflexivity || discriminate).
  - apply O; (reflexivity || discriminate).
  - apply O; (reflexivity || discriminate).
Qed.

(** ** Branch policy, both directions *)

(** Merging on a QA branch goes one way: a branch is never mergeable on
    itself, and if [source] is mergeable on [destination] then
    [destination] is not mergeable on [source]. *)
Theorem is_mergeable_on_qa_branch_one_way (config : Config)
    (source destination : string) :
  is_mergeable_on_qa_branch config source source = false
  /\ (is_mergeable_on_qa_branch config source destination = true ->
      is_mergeable_on_qa_branch config destination source = false).
Proof.
  unfold is_mergeable_on_qa_branch.
  destruct (branch_regex config source), (branch_regex config destination);
    simpl; split; auto; discriminate.
Qed.

Lemma is_mergeable_on_qa_branch_one_way_witness :
  is_mergeable_on_qa_branch readme_config "qa-main" "feature-x" = false.
Proof.
  apply (is_mergeable_on_qa_branch_one_way readme_config "feature-x" "qa-main").
  reflexivity.
Defined.

(** ** A refused request ends the run *)

(** Closes a leaf of the case analysis: the events are explicit, and what
    each provider answered is among the hypotheses. *)
Ltac refused_last :=
  cbn; unfold authorized;
  repeat match goal with
         | H : _ = failure |- _ => rewrite H
         | H : _ = success _ |- _ => rewrite H
         end;
  cbn; repeat split; intros; (discriminate || eauto).

(** In a run of [create_or_update_app], every request but the last was
    accepted by its provider: a refused request is never followed by
    another one.  When all requests were accepted nothing is logged; when
    the last one was refused, one [console.error] follows it. *)
Theorem refused_request_ends_the_run (config : Config) (world : World)
    (obj : Deployment) :
  forallb (accepted world obj)
    (removelast (calls (fst (create_or_update_app config world obj)))) = true
  /\ (forallb (accepted world obj)
        (calls (fst (create_or_update_app config world obj))) = true ->
      fst (create_or_update_app config world obj)
      = map Call (calls (fst (create_or_update_app config world obj))))
  /\ (forallb (accepted world obj)
        (calls (fst (create_or_update_app config world obj))) = false ->
      exists e,
        fst (create_or_update_app config world obj)
        = map Call (calls (fst (create_or_update_app config world obj)))
          ++ [ConsoleError e]).
Proof.
  unfold_deploy.
  generalize (tarball_url config obj) (comment_url config obj)
             (comment_content obj).
  intros tarball url content.
  unfold request, and_then, catch, resolve, reject, emit.
  destruct (post_authorizations world) as [| [token |]] eqn:A;
    [refused_last | | refused_last].
  destruct (get_apps world) as [| apps] eqn:L; [refused_last |].
  cbn. destruct (find _ apps) as [found |].
  - destruct (post_builds world (app_name obj) tarball) eqn:B; refused_last.
  - destruct (post_apps world (app_name obj)) as [| app] eqn:C;
      [refused_last |].
    destruct (patch_config_vars world (app_name obj)) eqn:P; [refused_last |].
    destruct (post_builds world (app_name obj) tarball) eqn:B;
      [refused_last |].
    cbn. destruct (truthy_string (App.web_url app)); [| refused_last].
    destruct (post_comment world url (content (App.web_url app))) eqn:M;
      refused_last.
Qed.

Lemma refused_request_ends_the_run_witness :
  exists e,
    fst (create_or_update_app readme_config (listing_down (healthy [] []))
           (deployment_of readme_config (pull_request 42 "OPEN" "qa-foo" "main")))
    = map Call
        (calls (fst (create_or_update_app readme_config
           (listing_down (healthy [] []))
           (deployment_of readme_config
              (pull_request 42 "OPEN" "qa-foo" "main")))))
      ++ [ConsoleError e].
Proof.
  destruct (refused_request_ends_the_run readme_config
              (listing_down (healthy [] []))
              (deployment_of readme_config
                 (pull_request 42 "OPEN" "qa-foo" "main"))) as (_ & _ & H).
  apply H. reflexivity.
Defined.
